(** * Device power-management core: drivers/base/power/main.c

    A shallow embedding of the PM core's phase drivers (prepare, suspend,
    suspend-noirq, resume-noirq, resume, complete), of the per-device
    bodies they dispatch to, of the completion / wait protocol and of the
    suspend watchdog, together with the properties established about
    them.

    Devices are named by identifiers (the address of a [struct device]);
    the kernel's global variables live in one [state] record that every
    function threads explicitly.  Driver callbacks are opaque functions
    over an abstract [world]; every externally visible action is recorded
    in a trace kept in the state, newest event first. *)

From Stdlib Require Import ZArith List Bool Arith Lia.
Import ListNotations.
Local Open Scope Z_scope.

(** ** The platform: what the kernel configuration and the hardware give *)

(** [world] is everything a driver callback can read or change besides
    the PM core's own variables; [jiffies] reads the tick counter out of
    it; [HZ] is the configured tick rate. *)
Class Platform : Type := {
  world : Type;
  jiffies : world -> Z;
  HZ : Z
}.

(** include/asm-generic/errno-base.h *)
Definition EAGAIN : Z := 11.
Definition EBUSY : Z := 16.

(** [unsigned long] arithmetic of the 32-bit target, and the signed
    comparison of tick counts of include/linux/jiffies.h. *)
Definition BITS_PER_LONG : Z := 32.
Definition ulong (z : Z) : Z := z mod 2 ^ BITS_PER_LONG.
Definition slong (z : Z) : Z :=
  let u := ulong z in
  if u <? 2 ^ (BITS_PER_LONG - 1) then u else u - 2 ^ BITS_PER_LONG.
Definition time_after_eq (a b : Z) : bool := 0 <=? slong (a - b).

(** ** Data model *)

Definition dev_id := nat.

(** [enum dpm_state] of include/linux/pm.h, in declaration order; the
    code compares states with [<], [>=] and the like, so the order
    matters. *)
Inductive dpm_state : Type :=
| DPM_INVALID
| DPM_ON
| DPM_PREPARING
| DPM_RESUMING
| DPM_SUSPENDING
| DPM_OFF
| DPM_OFF_IRQ.

Definition dpm_rank (s : dpm_state) : Z :=
  match s with
  | DPM_INVALID => 0
  | DPM_ON => 1
  | DPM_PREPARING => 2
  | DPM_RESUMING => 3
  | DPM_SUSPENDING => 4
  | DPM_OFF => 5
  | DPM_OFF_IRQ => 6
  end.

Definition dpm_ge (a b : dpm_state) : bool := dpm_rank b <=? dpm_rank a.
Definition dpm_gt (a b : dpm_state) : bool := dpm_rank b <? dpm_rank a.
Definition dpm_eq (a b : dpm_state) : bool := dpm_rank a =? dpm_rank b.

(** [pm_message_t] and the PM_EVENT_ codes. *)
Inductive pm_event : Type :=
| PM_EVENT_ON
| PM_EVENT_FREEZE
| PM_EVENT_SUSPEND
| PM_EVENT_HIBERNATE
| PM_EVENT_QUIESCE
| PM_EVENT_RESUME
| PM_EVENT_THAW
| PM_EVENT_RESTORE
| PM_EVENT_RECOVER.

Record pm_message_t : Type := { event : pm_event }.

Definition PMSG_ON := {| event := PM_EVENT_ON |}.
Definition PMSG_SUSPEND := {| event := PM_EVENT_SUSPEND |}.
Definition PMSG_RESUME := {| event := PM_EVENT_RESUME |}.
Definition PMSG_RECOVER := {| event := PM_EVENT_RECOVER |}.
Definition PMSG_RESTORE := {| event := PM_EVENT_RESTORE |}.

(** The three tiers a callback can come from, and which callback it is. *)
Inductive tier : Type := TClass | TType | TBus.

Inductive op : Type :=
| OpPrepare
| OpComplete
| OpSuspend
| OpResume
| OpSuspendNoirq
| OpResumeNoirq
| OpLegacySuspend
| OpLegacyResume.

Inductive event_t : Type :=
| EvLock                                    (* mutex_lock(&dpm_list_mtx) *)
| EvUnlock                                  (* mutex_unlock(&dpm_list_mtx) *)
| EvCall (d : dev_id) (t : tier) (o : op)   (* a device callback is entered *)
| EvReturn (d : dev_id) (t : tier) (o : op) (r : Z)
| EvWait (d : dev_id)                       (* wait_for_completion is entered *)
| EvInitCompletion (d : dev_id)
| EvCompleteAll (d : dev_id)
| EvAddTimer (d : dev_id) (tsk : nat) (expires : Z)
| EvDelTimer (d : dev_id)
| EvTimeout (d : dev_id)                    (* "**** DPM device timeout" *)
| EvShowStack (tsk : nat)
| EvBUG
| EvAsyncSchedule (d : dev_id)
| EvPmErr (d : dev_id) (err : Z)            (* pm_dev_err / printk(KERN_ERR) *)
| EvWarn (d : dev_id)
| EvRuntimeGet (d : dev_id)                 (* pm_runtime_get_noresume *)
| EvRuntimePut (d : dev_id)                 (* pm_runtime_put_sync *)
| EvSuspendIrqs
| EvResumeIrqs.

Section Model.
Context {PF : Platform}.

(** A callback taking the device and returning [int], the legacy form
    that also takes the [pm_message_t], and the [void] form of
    [->complete]. *)
Definition callback : Type := world -> Z * world.
Definition legacy_callback : Type := pm_message_t -> world -> Z * world.
Definition void_callback : Type := world -> world.

Record dev_pm_ops : Type := {
  prepare : option callback;
  complete : option void_callback;
  suspend : option callback;
  resume : option callback;
  suspend_noirq : option callback;
  resume_noirq : option callback
}.

Record bus_type : Type := {
  bus_pm : option dev_pm_ops;
  bus_suspend : option legacy_callback;
  bus_resume : option callback
}.

Record device_type : Type := {
  type_pm : option dev_pm_ops
}.

Record class_type : Type := {
  class_pm : option dev_pm_ops;
  class_suspend : option legacy_callback;
  class_resume : option callback
}.

(** [struct dev_pm_info]: the fields main.c uses.  [completion_done] is
    the [done] count of [power.completion] being non-zero,
    [power_async_suspend] is [power.async_suspend] and [may_wakeup] is
    [device_may_wakeup(dev)]. *)
Record dev_pm_info : Type := {
  status : dpm_state;
  completion_done : bool;
  power_async_suspend : bool;
  may_wakeup : bool
}.

Record device : Type := {
  parent : option dev_id;
  children : list dev_id;          (* klist_children, in klist order *)
  dev_bus : option bus_type;
  dev_type : option device_type;
  dev_class : option class_type;
  power : dev_pm_info;
  runtime_barrier : callback       (* what pm_runtime_barrier(dev) returns *)
}.

(** A pending [struct timer_list] whose function is [dpm_drv_timeout];
    [timer_dev] and [timer_tsk] are its [struct dpm_drv_wd_data]. *)
Record timer_list : Type := {
  timer_dev : dev_id;
  timer_tsk : nat;
  expires : Z
}.

(** Work handed to [async_schedule]. *)
Inductive async_task : Type :=
| TaskSuspend (d : dev_id)
| TaskResume (d : dev_id).

Record state : Type := {
  devs : dev_id -> device;
  dpm_list : list dev_id;
  transition_started : bool;
  pm_transition : pm_message_t;
  async_error : Z;
  pm_async_enabled : bool;
  pm_trace_enabled : bool;
  async_pending : list async_task;
  timers : list timer_list;
  current : nat;
  env : world;
  trace : list event_t
}.

(** *** Field updates *)

Definition set_power_status (v : dpm_state) (p : dev_pm_info) : dev_pm_info :=
  {| status := v; completion_done := completion_done p;
     power_async_suspend := power_async_suspend p; may_wakeup := may_wakeup p |}.

Definition set_power_completion (b : bool) (p : dev_pm_info) : dev_pm_info :=
  {| status := status p; completion_done := b;
     power_async_suspend := power_async_suspend p; may_wakeup := may_wakeup p |}.

Definition with_power (f : dev_pm_info -> dev_pm_info) (x : device) : device :=
  {| parent := parent x; children := children x; dev_bus := dev_bus x;
     dev_type := dev_type x; dev_class := dev_class x; power := f (power x);
     runtime_barrier := runtime_barrier x |}.

Definition upd_dev (d : dev_id) (f : device -> device)
    (m : dev_id -> device) : dev_id -> device :=
  fun x => if Nat.eqb x d then f (m x) else m x.

Definition with_devs (f : (dev_id -> device) -> dev_id -> device) (s : state) : state :=
  {| devs := f (devs s); dpm_list := dpm_list s;
     transition_started := transition_started s;
     pm_transition := pm_transition s; async_error := async_error s;
     pm_async_enabled := pm_async_enabled s;
     pm_trace_enabled := pm_trace_enabled s;
     async_pending := async_pending s; timers := timers s;
     current := current s; env := env s; trace := trace s |}.

Definition with_dpm_list (l : list dev_id) (s : state) : state :=
  {| devs := devs s; dpm_list := l;
     transition_started := transition_started s;
     pm_transition := pm_transition s; async_error := async_error s;
     pm_async_enabled := pm_async_enabled s;
     pm_trace_enabled := pm_trace_enabled s;
     async_pending := async_pending s; timers := timers s;
     current := current s; env := env s; trace := trace s |}.

Definition with_transition_started (b : bool) (s : state) : state :=
  {| devs := devs s; dpm_list := dpm_list s;
     transition_started := b;
     pm_transition := pm_transition s; async_error := async_error s;
     pm_async_enabled := pm_async_enabled s;
     pm_trace_enabled := pm_trace_enabled s;
     async_pending := async_pending s; timers := timers s;
     current := current s; env := env s; trace := trace s |}.

Definition with_pm_transition (m : pm_message_t) (s : state) : state :=
  {| devs := devs s; dpm_list := dpm_list s;
     transition_started := transition_started s;
     pm_transition := m; async_error := async_error s;
     pm_async_enabled := pm_async_enabled s;
     pm_trace_enabled := pm_trace_enabled s;
     async_pending := async_pending s; timers := timers s;
     current := current s; env := env s; trace := trace s |}.

Definition with_async_error (e : Z) (s : state) : state :=
  {| devs := devs s; dpm_list := dpm_list s;
     transition_started := transition_started s;
     pm_transition := pm_transition s; async_error := e;
     pm_async_enabled := pm_async_enabled s;
     pm_trace_enabled := pm_trace_enabled s;
     async_pending := async_pending s; timers := timers s;
     current := current s; env := env s; trace := trace s |}.

Definition with_async_pending (l : list async_task) (s : state) : state :=
  {| devs := devs s; dpm_list := dpm_list s;
     transition_started := transition_started s;
     pm_transition := pm_transition s; async_error := async_error s;
     pm_async_enabled := pm_async_enabled s;
     pm_trace_enabled := pm_trace_enabled s;
     async_pending := l; timers := timers s;
     current := current s; env := env s; trace := trace s |}.

Definition with_timers (l : list timer_list) (s : state) : state :=
  {| devs := devs s; dpm_list := dpm_list s;
     transition_started := transition_started s;
     pm_transition := pm_transition s; async_error := async_error s;
     pm_async_enabled := pm_async_enabled s;
     pm_trace_enabled := pm_trace_enabled s;
     async_pending := async_pending s; timers := l;
     current := current s; env := env s; trace := trace s |}.

Definition with_current (t : nat) (s : state) : state :=
  {| devs := devs s; dpm_list := dpm_list s;
     transition_started := transition_started s;
     pm_transition := pm_transition s; async_error := async_error s;
     pm_async_enabled := pm_async_enabled s;
     pm_trace_enabled := pm_trace_enabled s;
     async_pending := async_pending s; timers := timers s;
     current := t; env := env s; trace := trace s |}.

Definition with_env (w : world) (s : state) : state :=
  {| devs := devs s; dpm_list := dpm_list s;
     transition_started := transition_started s;
     pm_transition := pm_transition s; async_error := async_error s;
     pm_async_enabled := pm_async_enabled s;
     pm_trace_enabled := pm_trace_enabled s;
     async_pending := async_pending s; timers := timers s;
     current := current s; env := w; trace := trace s |}.

Definition with_trace (t : list event_t) (s : state) : state :=
  {| devs := devs s; dpm_list := dpm_list s;
     transition_started := transition_started s;
     pm_transition := pm_transition s; async_error := async_error s;
     pm_async_enabled := pm_async_enabled s;
     pm_trace_enabled := pm_trace_enabled s;
     async_pending := async_pending s; timers := timers s;
     current := current s; env := env s; trace := t |}.

Definition dev_status (s : state) (d : dev_id) : dpm_state :=
  status (power (devs s d)).

Definition dev_done (s : state) (d : dev_id) : bool :=
  completion_done (power (devs s d)).

(** ** The monad: state, plus the three ways a run can fail to return *)

(** [Blocked]: the running task sleeps on a completion nobody will
    signal.  [Crashed]: BUG() was reached.  [NoFuel]: the bound on loop
    iterations given to the model was used up. *)
Inductive outcome (A : Type) : Type :=
| Ret (a : A) (s : state)
| Blocked (s : state)
| Crashed (s : state)
| NoFuel (s : state).

Arguments Ret {A} a s.
Arguments Blocked {A} s.
Arguments Crashed {A} s.
Arguments NoFuel {A} s.

Definition M (A : Type) : Type := state -> outcome A.

Definition ret {A : Type} (a : A) : M A := fun s => Ret a s.

Definition bind {A B : Type} (m : M A) (f : A -> M B) : M B :=
  fun s =>
    match m s with
    | Ret a s' => f a s'
    | Blocked s' => Blocked s'
    | Crashed s' => Crashed s'
    | NoFuel s' => NoFuel s'
    end.

Definition get {A : Type} (f : state -> A) : M A := fun s => Ret (f s) s.
Definition modify (f : state -> state) : M unit := fun s => Ret tt (f s).

Definition final {A : Type} (o : outcome A) : state :=
  match o with
  | Ret _ s => s
  | Blocked s => s
  | Crashed s => s
  | NoFuel s => s
  end.

(** What a run returned, if it did. *)
Definition returned {A : Type} (o : outcome A) : option A :=
  match o with
  | Ret a _ => Some a
  | _ => None
  end.

End Model.

Arguments Ret {PF A} a s.
Arguments Blocked {PF A} s.
Arguments Crashed {PF A} s.
Arguments NoFuel {PF A} s.

Declare Scope pm_scope.
Delimit Scope pm_scope with pm.
Notation "x <- c1 ;; c2" := (bind c1 (fun x => c2))
  (at level 61, c1 at next level, right associativity) : pm_scope.
Notation "c1 ;; c2" := (bind c1 (fun _ => c2))
  (at level 61, right associativity) : pm_scope.

Local Open Scope pm_scope.

Section Core.
Context {PF : Platform}.

(** ** Primitive actions *)

Definition log (e : event_t) : M unit :=
  modify (fun s => with_trace (e :: trace s) s).

Definition mutex_lock : M unit := log EvLock.
Definition mutex_unlock : M unit := log EvUnlock.

Definition set_status (d : dev_id) (v : dpm_state) : M unit :=
  modify (with_devs (upd_dev d (with_power (set_power_status v)))).

Definition INIT_COMPLETION (d : dev_id) : M unit :=
  modify (with_devs (upd_dev d (with_power (set_power_completion false)))) ;;
  log (EvInitCompletion d).

Definition complete_all (d : dev_id) : M unit :=
  modify (with_devs (upd_dev d (with_power (set_power_completion true)))) ;;
  log (EvCompleteAll d).

Definition block {A : Type} : M A := fun s => Blocked s.
Definition out_of_fuel {A : Type} : M A := fun s => NoFuel s.
Definition BUG {A : Type} : M A :=
  fun s => Crashed (with_trace (EvBUG :: trace s) s).

Definition pm_dev_err (d : dev_id) (error : Z) : M unit := log (EvPmErr d error).

(** *** The watchdog handler and the timer wheel *)

(** [dpm_drv_timeout]: print the device, dump the stack of the task
    that armed the timer, BUG(). *)
Definition dpm_drv_timeout (data : timer_list) : M unit :=
  log (EvTimeout (timer_dev data)) ;;
  log (EvShowStack (timer_tsk data)) ;;
  BUG.

Definition timer_expired (w : world) (t : timer_list) : bool :=
  time_after_eq (jiffies w) (expires t).

(** Time passes only inside callbacks; when one comes back the first
    pending timer whose deadline has been reached has already run. *)
Definition run_timers : M unit :=
  w <- get env ;;
  tms <- get timers ;;
  match find (timer_expired w) tms with
  | Some t => dpm_drv_timeout t
  | None => ret tt
  end.

Definition same_timer (a b : timer_list) : bool :=
  Nat.eqb (timer_dev a) (timer_dev b) && Nat.eqb (timer_tsk a) (timer_tsk b).

Fixpoint del_first (t : timer_list) (l : list timer_list) : list timer_list :=
  match l with
  | [] => []
  | x :: r => if same_timer t x then r else x :: del_first t r
  end.

Definition add_timer (t : timer_list) : M unit :=
  modify (fun s => with_timers (t :: timers s) s) ;;
  log (EvAddTimer (timer_dev t) (timer_tsk t) (expires t)).

Definition del_timer_sync (t : timer_list) : M unit :=
  modify (fun s => with_timers (del_first t (timers s)) s) ;;
  log (EvDelTimer (timer_dev t)).

(** *** Calling into a driver *)

Definition invoke (d : dev_id) (t : tier) (o : op) (cb : callback) : M Z :=
  log (EvCall d t o) ;;
  w <- get env ;;
  modify (with_env (snd (cb w))) ;;
  run_timers ;;
  log (EvReturn d t o (fst (cb w))) ;;
  ret (fst (cb w)).

Definition invoke_void (d : dev_id) (t : tier) (o : op) (cb : void_callback) : M unit :=
  log (EvCall d t o) ;;
  w <- get env ;;
  modify (with_env (cb w)) ;;
  run_timers ;;
  log (EvReturn d t o 0).

Definition pm_runtime_barrier (d : dev_id) : M Z :=
  f <- get (fun s => runtime_barrier (devs s d)) ;;
  w <- get env ;;
  modify (with_env (snd (f w))) ;;
  ret (fst (f w)).

Definition pm_runtime_get_noresume (d : dev_id) : M unit := log (EvRuntimeGet d).
Definition pm_runtime_put_sync (d : dev_id) : M unit := log (EvRuntimePut d).

(** *** List surgery on [dpm_list] and on a phase's local [list]

    The local [struct list_head list] of a phase driver is the [done]
    argument below. *)

Definition list_del (d : dev_id) (l : list dev_id) : list dev_id :=
  filter (fun x => negb (Nat.eqb x d)) l.

Definition on_list (d : dev_id) (l : list dev_id) : bool :=
  existsb (Nat.eqb d) l.

(** [dpm_list.next] and [dpm_list.prev] of a non-empty list. *)
Definition list_next (l : list dev_id) : option dev_id := hd_error l.
Definition list_prev (l : list dev_id) : option dev_id := hd_error (rev l).

(** [if (!list_empty(&dev->power.entry)) list_move_tail(&dev->power.entry, &list)] *)
Definition list_move_tail (d : dev_id) (done : list dev_id) : M (list dev_id) :=
  l <- get dpm_list ;;
  if on_list d l
  then modify (with_dpm_list (list_del d l)) ;; ret (done ++ [d])
  else ret done.

(** [if (!list_empty(&dev->power.entry)) list_move(&dev->power.entry, &list)] *)
Definition list_move (d : dev_id) (done : list dev_id) : M (list dev_id) :=
  l <- get dpm_list ;;
  if on_list d l
  then modify (with_dpm_list (list_del d l)) ;; ret (d :: done)
  else ret done.

(** ** Registration *)

Definition device_pm_init (d : dev_id) : M unit :=
  set_status d DPM_ON ;;
  modify (with_devs (upd_dev d (with_power (set_power_completion false)))) ;;
  complete_all d.

Definition device_pm_add (d : dev_id) : M unit :=
  mutex_lock ;;
  p <- get (fun s => parent (devs s d)) ;;
  ts <- get transition_started ;;
  match p with
  | Some par =>
      st <- get (fun s => dev_status s par) ;;
      if dpm_ge st DPM_SUSPENDING then log (EvWarn d) else ret tt
  | None => if ts then log (EvWarn d) else ret tt
  end ;;
  modify (fun s => with_dpm_list (dpm_list s ++ [d]) s) ;;
  mutex_unlock.

Definition device_pm_remove (d : dev_id) : M unit :=
  complete_all d ;;
  mutex_lock ;;
  modify (fun s => with_dpm_list (list_del d (dpm_list s)) s) ;;
  mutex_unlock.

Definition device_pm_lock : M unit := mutex_lock.
Definition device_pm_unlock : M unit := mutex_unlock.






(** ** Per-device bodies

    A body runs either on the controlling task or on an async worker.
    [yield] is what happens when the running task has to sleep: the
    controlling task lets the workers run, a worker just stays blocked. *)

Section Bodies.
Variable yield : M unit.

Definition wait_for_completion (d : dev_id) : M unit :=
  log (EvWait d) ;;
  ok <- get (fun s => dev_done s d) ;;
  if ok : bool then ret tt
  else
    yield ;;
    ok' <- get (fun s => dev_done s d) ;;
    if ok' : bool then ret tt else block.

Definition dpm_wait (dev : option dev_id) (async : bool) : M unit :=
  match dev with
  | None => ret tt
  | Some d =>
      en <- get pm_async_enabled ;;
      a <- get (fun s => power_async_suspend (power (devs s d))) ;;
      if async || (en && a) then wait_for_completion d else ret tt
  end.

Definition dpm_wait_fn (async : bool) (d : dev_id) : M Z :=
  dpm_wait (Some d) async ;; ret 0.

Fixpoint for_each_child (l : list dev_id) (fn : dev_id -> M Z) : M Z :=
  match l with
  | [] => ret 0
  | c :: r =>
      e <- fn c ;;
      if e =? 0 then for_each_child r fn else ret e
  end.

Definition device_for_each_child (d : dev_id) (fn : dev_id -> M Z) : M Z :=
  ch <- get (fun s => children (devs s d)) ;;
  for_each_child ch fn.

Definition dpm_wait_for_children (d : dev_id) (async : bool) : M unit :=
  device_for_each_child d (dpm_wait_fn async) ;; ret tt.

Definition dpm_run_callback (d : dev_id) (t : tier) (o : op)
    (cb : option callback) : M Z :=
  match cb with
  | None => ret 0
  | Some f => invoke d t o f
  end.

Definition legacy_suspend (d : dev_id) (state : pm_message_t) (t : tier)
    (cb : legacy_callback) : M Z :=
  invoke d t OpLegacySuspend (cb state).

(** *** device_resume_noirq: bus, type, class *)

Definition pm_of_bus (b : option bus_type) : option dev_pm_ops :=
  match b with Some x => bus_pm x | None => None end.
Definition pm_of_type (t : option device_type) : option dev_pm_ops :=
  match t with Some x => type_pm x | None => None end.
Definition pm_of_class (c : option class_type) : option dev_pm_ops :=
  match c with Some x => class_pm x | None => None end.

Definition device_resume_noirq (d : dev_id) (state : pm_message_t) : M Z :=
  dv <- get (fun s => devs s d) ;;
  e1 <- match pm_of_bus (dev_bus dv) with
        | Some pm => dpm_run_callback d TBus OpResumeNoirq (resume_noirq pm)
        | None => ret 0
        end ;;
  if negb (e1 =? 0) then ret e1 else
  e2 <- match pm_of_type (dev_type dv) with
        | Some pm => dpm_run_callback d TType OpResumeNoirq (resume_noirq pm)
        | None => ret 0
        end ;;
  if negb (e2 =? 0) then ret e2 else
  match pm_of_class (dev_class dv) with
  | Some pm => dpm_run_callback d TClass OpResumeNoirq (resume_noirq pm)
  | None => ret 0
  end.

(** *** device_resume *)

Definition resume_bus (d : dev_id) (dv : device) : M Z :=
  match dev_bus dv with
  | Some b =>
      match bus_pm b with
      | Some pm => dpm_run_callback d TBus OpResume (resume pm)
      | None =>
          match bus_resume b with
          | Some cb => dpm_run_callback d TBus OpLegacyResume (Some cb)
          | None => ret 0
          end
      end
  | None => ret 0
  end.

Definition resume_type (d : dev_id) (dv : device) : M Z :=
  match dev_type dv with
  | Some t =>
      match type_pm t with
      | Some pm => dpm_run_callback d TType OpResume (resume pm)
      | None => ret 0
      end
  | None => ret 0
  end.

Definition resume_class (d : dev_id) (dv : device) : M Z :=
  match dev_class dv with
  | Some c =>
      match class_pm c with
      | Some pm => dpm_run_callback d TClass OpResume (resume pm)
      | None =>
          match class_resume c with
          | Some cb => dpm_run_callback d TClass OpLegacyResume (Some cb)
          | None => ret 0
          end
      end
  | None => ret 0
  end.

(** Lines 393-422: the tiers of [device_resume], up to label [End]. *)
Definition device_resume_callbacks (d : dev_id) : M Z :=
  dv <- get (fun s => devs s d) ;;
  e1 <- resume_bus d dv ;;
  if negb (e1 =? 0) then ret e1 else
  e2 <- resume_type d dv ;;
  if negb (e2 =? 0) then ret e2 else
  resume_class d dv.

Definition device_resume (d : dev_id) (state : pm_message_t) (async : bool) : M Z :=
  p <- get (fun s => parent (devs s d)) ;;
  match p with
  | Some par =>
      st <- get (fun s => dev_status s par) ;;
      if dpm_ge st DPM_OFF || dpm_eq st DPM_RESUMING
      then dpm_wait (Some par) async
      else ret tt
  | None => ret tt
  end ;;
  set_status d DPM_RESUMING ;;
  error <- device_resume_callbacks d ;;
  complete_all d ;;
  ret error.

Definition async_resume (d : dev_id) : M unit :=
  state <- get pm_transition ;;
  error <- device_resume d state true ;;
  if negb (error =? 0) then pm_dev_err d error else ret tt.

Definition is_async (d : dev_id) : M bool :=
  a <- get (fun s => power_async_suspend (power (devs s d))) ;;
  en <- get pm_async_enabled ;;
  tr <- get pm_trace_enabled ;;
  ret (a && en && negb tr).

(** *** device_complete: class, type, bus *)

Definition complete_of (pm : option dev_pm_ops) : option void_callback :=
  match pm with Some x => complete x | None => None end.

Definition device_complete (d : dev_id) (state : pm_message_t) : M unit :=
  dv <- get (fun s => devs s d) ;;
  match complete_of (pm_of_class (dev_class dv)) with
  | Some cb => invoke_void d TClass OpComplete cb
  | None => ret tt
  end ;;
  match complete_of (pm_of_type (dev_type dv)) with
  | Some cb => invoke_void d TType OpComplete cb
  | None => ret tt
  end ;;
  match complete_of (pm_of_bus (dev_bus dv)) with
  | Some cb => invoke_void d TBus OpComplete cb
  | None => ret tt
  end.

(** *** Suspend *)

Definition resume_event (sleep_state : pm_message_t) : pm_message_t :=
  match event sleep_state with
  | PM_EVENT_SUSPEND => PMSG_RESUME
  | PM_EVENT_FREEZE => PMSG_RECOVER
  | PM_EVENT_QUIESCE => PMSG_RECOVER
  | PM_EVENT_HIBERNATE => PMSG_RESTORE
  | _ => PMSG_ON
  end.

Definition device_suspend_noirq (d : dev_id) (state : pm_message_t) : M Z :=
  dv <- get (fun s => devs s d) ;;
  e1 <- match pm_of_class (dev_class dv) with
        | Some pm => dpm_run_callback d TClass OpSuspendNoirq (suspend_noirq pm)
        | None => ret 0
        end ;;
  if negb (e1 =? 0) then ret e1 else
  e2 <- match pm_of_type (dev_type dv) with
        | Some pm => dpm_run_callback d TType OpSuspendNoirq (suspend_noirq pm)
        | None => ret 0
        end ;;
  if negb (e2 =? 0) then ret e2 else
  match pm_of_bus (dev_bus dv) with
  | Some pm => dpm_run_callback d TBus OpSuspendNoirq (suspend_noirq pm)
  | None => ret 0
  end.

Definition suspend_class (d : dev_id) (state : pm_message_t) (dv : device) : M Z :=
  match dev_class dv with
  | Some c =>
      match class_pm c with
      | Some pm => dpm_run_callback d TClass OpSuspend (suspend pm)
      | None =>
          match class_suspend c with
          | Some cb => legacy_suspend d state TClass cb
          | None => ret 0
          end
      end
  | None => ret 0
  end.

Definition suspend_type (d : dev_id) (dv : device) : M Z :=
  match dev_type dv with
  | Some t =>
      match type_pm t with
      | Some pm => dpm_run_callback d TType OpSuspend (suspend pm)
      | None => ret 0
      end
  | None => ret 0
  end.

Definition suspend_bus (d : dev_id) (state : pm_message_t) (dv : device) : M Z :=
  match dev_bus dv with
  | Some b =>
      match bus_pm b with
      | Some pm => dpm_run_callback d TBus OpSuspend (suspend pm)
      | None =>
          match bus_suspend b with
          | Some cb => legacy_suspend d state TBus cb
          | None => ret 0
          end
      end
  | None => ret 0
  end.

(** Lines 746-775: the tiers of [__device_suspend]. *)
Definition device_suspend_callbacks (d : dev_id) (state : pm_message_t) : M Z :=
  dv <- get (fun s => devs s d) ;;
  e1 <- suspend_class d state dv ;;
  if negb (e1 =? 0) then ret e1 else
  e2 <- suspend_type d dv ;;
  if negb (e2 =? 0) then ret e2 else
  suspend_bus d state dv.

(** Lines 743-778: what runs between [device_lock] and label [End]. *)
Definition device_suspend_guarded (d : dev_id) (state : pm_message_t) : M Z :=
  ae <- get async_error ;;
  if negb (ae =? 0) then ret 0 else
  error <- device_suspend_callbacks d state ;;
  (if error =? 0 then set_status d DPM_OFF else ret tt) ;;
  ret error.

Definition watchdog_timer (d : dev_id) (s : state) : timer_list :=
  {| timer_dev := d; timer_tsk := current s;
     expires := ulong (jiffies (env s) + HZ * 12) |}.

Definition __device_suspend (d : dev_id) (state : pm_message_t) (async : bool) : M Z :=
  dpm_wait_for_children d async ;;
  timer <- get (watchdog_timer d) ;;
  add_timer timer ;;
  error <- device_suspend_guarded d state ;;
  del_timer_sync timer ;;
  complete_all d ;;
  ret error.

Definition async_suspend (d : dev_id) : M unit :=
  state <- get pm_transition ;;
  error <- __device_suspend d state true ;;
  if negb (error =? 0)
  then pm_dev_err d error ;; modify (with_async_error error)
  else ret tt.

(** [device_pm_wait_for_dev(subordinate, dev)] *)
Definition device_pm_wait_for_dev (subordinate dev : dev_id) : M unit :=
  a <- get (fun s => power_async_suspend (power (devs s subordinate))) ;;
  dpm_wait (Some dev) a.

End Bodies.

End Core.

Section Drivers.
Context {PF : Platform}.

(** ** The async workers

    [async_schedule] queues a task; a worker runs the task's function to
    its end unless the function would sleep on a completion straight
    away, in which case the task stays queued.  The workers get the
    processor when the controlling task sleeps ([schedule]) and at the
    barrier [async_synchronize_full]. *)

Definition worker_of (t : async_task) : nat :=
  match t with
  | TaskSuspend d => S d
  | TaskResume d => S d
  end.

Definition run_task (t : async_task) : M unit :=
  me <- get current ;;
  modify (with_current (worker_of t)) ;;
  match t with
  | TaskSuspend d => async_suspend block d
  | TaskResume d => async_resume block d
  end ;;
  modify (with_current me).

Definition try_task (t : async_task) : M bool :=
  fun s =>
    match run_task t s with
    | Ret _ s' => Ret true s'
    | Blocked _ => Ret false s
    | Crashed s' => Crashed s'
    | NoFuel s' => NoFuel s'
    end.

Fixpoint sweep (todo : list async_task) : M (list async_task) :=
  match todo with
  | [] => ret []
  | t :: r =>
      ran <- try_task t ;;
      waiting <- sweep r ;;
      ret (if ran : bool then waiting else t :: waiting)
  end.

Fixpoint run_workers (fuel : nat) : M unit :=
  match fuel with
  | O => ret tt
  | S f =>
      todo <- get async_pending ;;
      match todo with
      | [] => ret tt
      | _ :: _ =>
          modify (with_async_pending []) ;;
          waiting <- sweep todo ;;
          modify (with_async_pending waiting) ;;
          if (length waiting <? length todo)%nat then run_workers f else ret tt
      end
  end.

Definition schedule : M unit :=
  n <- get (fun s => length (async_pending s)) ;;
  run_workers n.

Definition async_schedule (t : async_task) : M unit :=
  modify (fun s => with_async_pending (async_pending s ++ [t]) s) ;;
  log (EvAsyncSchedule (pred (worker_of t))).

Definition async_synchronize_full : M unit :=
  schedule ;;
  p <- get async_pending ;;
  match p with
  | [] => ret tt
  | _ :: _ => block
  end.

(** ** Resume phases *)

Fixpoint dpm_resume_noirq_walk (l : list dev_id) (state : pm_message_t) : M unit :=
  match l with
  | [] => ret tt
  | dev :: r =>
      st <- get (fun s => dev_status s dev) ;;
      (if dpm_gt st DPM_OFF
       then
         set_status dev DPM_OFF ;;
         error <- device_resume_noirq dev state ;;
         if negb (error =? 0) then pm_dev_err dev error else ret tt
       else ret tt) ;;
      dpm_resume_noirq_walk r state
  end.

Definition dpm_resume_noirq (state : pm_message_t) : M unit :=
  mutex_lock ;;
  modify (with_transition_started false) ;;
  l <- get dpm_list ;;
  dpm_resume_noirq_walk l state ;;
  mutex_unlock ;;
  log EvResumeIrqs.




Fixpoint dpm_complete_loop (fuel : nat) (state : pm_message_t)
    (done : list dev_id) : M (list dev_id) :=
  l <- get dpm_list ;;
  match list_prev l with
  | None => ret done
  | Some dev =>
      match fuel with
      | O => out_of_fuel
      | S f =>
          st <- get (fun s => dev_status s dev) ;;
          (if dpm_gt st DPM_ON
           then
             set_status dev DPM_ON ;;
             mutex_unlock ;;
             device_complete dev state ;;
             pm_runtime_put_sync dev ;;
             mutex_lock
           else ret tt) ;;
          done' <- list_move dev done ;;
          dpm_complete_loop f state done'
      end
  end.

Definition dpm_complete (state : pm_message_t) : M unit :=
  mutex_lock ;;
  modify (with_transition_started false) ;;
  l <- get dpm_list ;;
  done <- dpm_complete_loop (length l) state [] ;;
  modify (fun s => with_dpm_list (done ++ dpm_list s) s) ;;
  mutex_unlock.


(** ** Suspend phases *)

(** [list_for_each_entry_reverse] of [dpm_suspend_noirq], up to the
    [break]; [l] is [dpm_list] from its tail. *)
Fixpoint dpm_suspend_noirq_walk (l : list dev_id) (state : pm_message_t) : M Z :=
  match l with
  | [] => ret 0
  | dev :: r =>
      error <- device_suspend_noirq dev state ;;
      if negb (error =? 0)
      then pm_dev_err dev error ;; ret error
      else set_status dev DPM_OFF_IRQ ;; dpm_suspend_noirq_walk r state
  end.

Definition dpm_suspend_noirq (state : pm_message_t) : M Z :=
  log EvSuspendIrqs ;;
  mutex_lock ;;
  l <- get dpm_list ;;
  error <- dpm_suspend_noirq_walk (rev l) state ;;
  mutex_unlock ;;
  (if negb (error =? 0) then dpm_resume_noirq (resume_event state) else ret tt) ;;
  ret error.

Definition device_suspend (d : dev_id) : M Z :=
  INIT_COMPLETION d ;;
  en <- get pm_async_enabled ;;
  a <- get (fun s => power_async_suspend (power (devs s d))) ;;
  if en && a
  then async_schedule (TaskSuspend d) ;; ret 0
  else
    state <- get pm_transition ;;
    __device_suspend schedule d state false.

(** The loop of [dpm_suspend]; returns [error] and the local [list]. *)
Fixpoint dpm_suspend_loop (fuel : nat) (state : pm_message_t)
    (done : list dev_id) : M (Z * list dev_id) :=
  l <- get dpm_list ;;
  match list_prev l with
  | None => ret (0, done)
  | Some dev =>
      match fuel with
      | O => out_of_fuel
      | S f =>
          mutex_unlock ;;
          error <- device_suspend dev ;;
          mutex_lock ;;
          if negb (error =? 0)
          then pm_dev_err dev error ;; ret (error, done)
          else
            done' <- list_move dev done ;;
            ae <- get async_error ;;
            if negb (ae =? 0) then ret (error, done')
            else dpm_suspend_loop f state done'
      end
  end.

Definition dpm_suspend (state : pm_message_t) : M Z :=
  mutex_lock ;;
  modify (with_pm_transition state) ;;
  modify (with_async_error 0) ;;
  l <- get dpm_list ;;
  r <- dpm_suspend_loop (length l) state [] ;;
  modify (fun s => with_dpm_list (dpm_list s ++ snd r) s) ;;
  mutex_unlock ;;
  async_synchronize_full ;;
  ae <- get async_error ;;
  ret (if fst r =? 0 then ae else fst r).

(** *** Prepare *)

Definition prepare_of (pm : option dev_pm_ops) : option callback :=
  match pm with Some x => prepare x | None => None end.

Definition device_prepare (d : dev_id) (state : pm_message_t) : M Z :=
  dv <- get (fun s => devs s d) ;;
  e1 <- match prepare_of (pm_of_bus (dev_bus dv)) with
        | Some cb => invoke d TBus OpPrepare cb
        | None => ret 0
        end ;;
  if negb (e1 =? 0) then ret e1 else
  e2 <- match prepare_of (pm_of_type (dev_type dv)) with
        | Some cb => invoke d TType OpPrepare cb
        | None => ret 0
        end ;;
  if negb (e2 =? 0) then ret e2 else
  match prepare_of (pm_of_class (dev_class dv)) with
  | Some cb => invoke d TClass OpPrepare cb
  | None => ret 0
  end.

(** Lines 924-931: the runtime-PM barrier and the prepare callbacks of
    one device, run with [dpm_list_mtx] released. *)
Definition dpm_prepare_one (dev : dev_id) (state : pm_message_t) : M Z :=
  pm_runtime_get_noresume dev ;;
  b <- pm_runtime_barrier dev ;;
  w <- get (fun s => may_wakeup (power (devs s dev))) ;;
  if negb (b =? 0) && w
  then pm_runtime_put_sync dev ;; ret (- EBUSY)
  else device_prepare dev state.

(** The loop of [dpm_prepare].  On [-EAGAIN] the C code executes
    [continue] before the device has been moved to the local list, so
    the next iteration finds the same device at [dpm_list.next]; the
    number of iterations is therefore not bounded by the length of the
    list and the model takes it as [fuel]. *)
Fixpoint dpm_prepare_loop (fuel : nat) (state : pm_message_t)
    (done : list dev_id) : M (Z * list dev_id) :=
  l <- get dpm_list ;;
  match list_next l with
  | None => ret (0, done)
  | Some dev =>
      match fuel with
      | O => out_of_fuel
      | S f =>
          set_status dev DPM_PREPARING ;;
          mutex_unlock ;;
          error <- dpm_prepare_one dev state ;;
          mutex_lock ;;
          if negb (error =? 0)
          then
            set_status dev DPM_ON ;;
            if error =? - EAGAIN
            then dpm_prepare_loop f state done
            else log (EvPmErr dev error) ;; ret (error, done)
          else
            set_status dev DPM_SUSPENDING ;;
            done' <- list_move_tail dev done ;;
            dpm_prepare_loop f state done'
      end
  end.

Definition dpm_prepare (fuel : nat) (state : pm_message_t) : M Z :=
  mutex_lock ;;
  modify (with_transition_started true) ;;
  r <- dpm_prepare_loop fuel state [] ;;
  modify (fun s => with_dpm_list (snd r ++ dpm_list s) s) ;;
  mutex_unlock ;;
  ret (fst r).

Definition dpm_suspend_start (fuel : nat) (state : pm_message_t) : M Z :=
  error <- dpm_prepare fuel state ;;
  if error =? 0 then dpm_suspend state else ret error.

End Drivers.

(** ** Specification vocabulary *)

Section Vocabulary.
Context {PF : Platform}.

(** *** Weakest preconditions over the monad *)

Inductive abort : Type := ABlocked | ACrashed | ANoFuel.

Definition wp {A : Type} (m : M A) (Q : A -> state -> Prop)
    (E : abort -> state -> Prop) (s : state) : Prop :=
  match m s with
  | Ret a s' => Q a s'
  | Blocked s' => E ABlocked s'
  | Crashed s' => E ACrashed s'
  | NoFuel s' => E ANoFuel s'
  end.

Definition hoare {A : Type} (P : state -> Prop) (m : M A)
    (Q : A -> state -> Prop) (E : abort -> state -> Prop) : Prop :=
  forall s, P s -> wp m Q E s.

(** [m] keeps the invariant [I], however it ends. *)
Definition keeps (I : state -> Prop) {A : Type} (m : M A) : Prop :=
  forall s, I s -> wp m (fun _ => I) (fun _ => I) s.

(** From [P] the run of [m] ends in [Q] when it returns and in [E]
    when it does not. *)
Definition triple {A : Type} (P : state -> Prop) (m : M A)
    (Q E : state -> Prop) : Prop :=
  forall s, P s -> wp m (fun _ => Q) (fun _ => E) s.

(** *** Reading the trace *)

(** Whether [dpm_list_mtx] is held after the events of [tr] (newest
    first), and whether every callback entry and every wait on a
    completion in [tr] happened with the mutex released. *)
Fixpoint held (tr : list event_t) : bool :=
  match tr with
  | [] => false
  | EvLock :: _ => true
  | EvUnlock :: _ => false
  | _ :: r => held r
  end.

Definition is_call (e : event_t) : bool :=
  match e with
  | EvCall _ _ _ => true
  | _ => false
  end.

Definition is_wait (e : event_t) : bool :=
  match e with
  | EvWait _ => true
  | _ => false
  end.

Fixpoint lock_respected (tr : list event_t) : bool :=
  match tr with
  | [] => true
  | e :: r => (negb (is_call e || is_wait e) || negb (held r)) && lock_respected r
  end.

Definition respects (s : state) : Prop := lock_respected (trace s) = true.
Definition unlocked (s : state) : Prop :=
  lock_respected (trace s) = true /\ held (trace s) = false.
Definition locked (s : state) : Prop :=
  lock_respected (trace s) = true /\ held (trace s) = true.

(** Every callback entry in [tr] happened with the mutex held. *)
Fixpoint calls_locked (tr : list event_t) : bool :=
  match tr with
  | [] => true
  | e :: r => (negb (is_call e) || held r) && calls_locked r
  end.

Definition under_lock (s : state) : Prop :=
  calls_locked (trace s) = true /\ held (trace s) = true.
Definition lock_free (s : state) : Prop :=
  calls_locked (trace s) = true /\ held (trace s) = false.
Definition all_calls_locked (s : state) : Prop := calls_locked (trace s) = true.

(** Events a body may log whoever it works for: everything except the
    mutex, callback entry and return, the interrupt switch and the
    hand-over to a worker. *)
Definition plain (e : event_t) : bool :=
  match e with
  | EvLock | EvUnlock | EvCall _ _ _ | EvReturn _ _ _ _
  | EvSuspendIrqs | EvResumeIrqs | EvAsyncSchedule _ => false
  | _ => true
  end.

Definition task_dev (t : async_task) : dev_id :=
  match t with
  | TaskSuspend d => d
  | TaskResume d => d
  end.

(** Events of device [d]'s callbacks. *)
Definition callback_of (d : dev_id) (e : event_t) : bool :=
  match e with
  | EvCall x _ _ => Nat.eqb x d
  | EvReturn x _ _ _ => Nat.eqb x d
  | _ => false
  end.

(** The completion of [d] is signaled and [complete_all] on it is the
    newest event. *)
Definition signaled (d : dev_id) (s : state) : Prop :=
  dev_done s d = true /\ exists tr, trace s = EvCompleteAll d :: tr.

(** Inside the region guarded by watchdog [tm], armed when the trace
    was [base]: the timer is pending on top of the timers [others], and
    everything logged since is a callback event of [d]. *)
Definition guarded_by (d : dev_id) (tm : timer_list) (others : list timer_list)
    (base : list event_t) (s : state) : Prop :=
  timers s = tm :: others
  /\ exists mid,
       trace s = mid ++ EvAddTimer d (timer_tsk tm) (expires tm) :: base
       /\ Forall (fun e => callback_of d e = true) mid.

(** The machine died in BUG() called from the handler of a timer that
    was pending in the guarded region, while a callback of [d] had not
    returned. *)
Definition died_in_watchdog (d : dev_id) (tm : timer_list)
    (others : list timer_list) (base : list event_t) (s : state) : Prop :=
  exists fired t o mid,
    In fired (tm :: others)
    /\ timer_expired (env s) fired = true
    /\ trace s = EvBUG :: EvShowStack (timer_tsk fired)
                 :: EvTimeout (timer_dev fired) :: EvCall d t o
                 :: mid ++ EvAddTimer d (timer_tsk tm) (expires tm) :: base
    /\ Forall (fun e => callback_of d e = true) mid.

(** The state in which [dpm_prepare] runs the prepare work of [dev]
    (status PREPARING, mutex released), and the state in which it puts
    the device back to ON after a failure (mutex taken again). *)
Definition prepare_entered (dev : dev_id) (s : state) : state :=
  let s' := with_devs (upd_dev dev (with_power (set_power_status DPM_PREPARING))) s in
  with_trace (EvUnlock :: trace s') s'.

Definition prepare_failed (dev : dev_id) (s1 : state) : state :=
  with_devs (upd_dev dev (with_power (set_power_status DPM_ON)))
    (with_trace (EvLock :: trace s1) s1).

(** Since the trace was [base], no callback of [d] has been entered or
    has returned. *)
Definition quiet_since (d : dev_id) (base : list event_t) (s : state) : Prop :=
  exists new,
    trace s = new ++ base /\ Forall (fun e => callback_of d e = false) new.

(** The tiers of [d] are those of the record [dv]. *)
Definition same_tiers (d : dev_id) (dv : device) (s : state) : Prop :=
  dev_bus (devs s d) = dev_bus dv
  /\ dev_type (devs s d) = dev_type dv
  /\ dev_class (devs s d) = dev_class dv.

(** Device [d] is at status [v], no worker holds a task for it, and
    none of its callbacks has run since [base]. *)
Definition untouched (d : dev_id) (v : dpm_state) (base : list event_t)
    (s : state) : Prop :=
  dev_status s d = v
  /\ Forall (fun t => task_dev t <> d) (async_pending s)
  /\ quiet_since d base s.


Definition extends (base : list event_t) (s : state) : Prop :=
  exists new, trace s = new ++ base.







(** Every device of [l] is at status [v]. *)
Definition all_at (l : list dev_id) (v : dpm_state) (s : state) : Prop :=
  forall y, In y l -> dev_status s y = v.

(** None of the devices of [l] has had a callback entered since [base]. *)
Definition quiet_all (l : list dev_id) (base : list event_t) (s : state) : Prop :=
  forall y, In y l -> quiet_since y base s.


(** Since the trace was [base], a callback of [d] has returned [err]. *)
Definition failed_since (d : dev_id) (err : Z) (base : list event_t)
    (s : state) : Prop :=
  exists t o new, trace s = new ++ base /\ In (EvReturn d t o err) new.

(** *** The dispatch plan the callback runner is specified by

    One slot per tier: the structured callback when the tier has a
    [dev_pm_ops], else the legacy function; the slots are run in order
    and the run stops at the first non-zero result. *)
Definition slot : Type := tier * option (op * callback).

Definition pick (pm : option dev_pm_ops) (sel : dev_pm_ops -> option callback)
    (o : op) (legacy : option callback) (lo : op) : option (op * callback) :=
  match pm with
  | Some ops =>
      match sel ops with
      | Some cb => Some (o, cb)
      | None => None
      end
  | None =>
      match legacy with
      | Some cb => Some (lo, cb)
      | None => None
      end
  end.

Definition legacy_suspend_of_class (state : pm_message_t)
    (c : option class_type) : option callback :=
  match c with
  | Some x => match class_suspend x with Some f => Some (f state) | None => None end
  | None => None
  end.

Definition legacy_suspend_of_bus (state : pm_message_t)
    (b : option bus_type) : option callback :=
  match b with
  | Some x => match bus_suspend x with Some f => Some (f state) | None => None end
  | None => None
  end.

Definition legacy_resume_of_class (c : option class_type) : option callback :=
  match c with Some x => class_resume x | None => None end.

Definition legacy_resume_of_bus (b : option bus_type) : option callback :=
  match b with Some x => bus_resume x | None => None end.

Definition suspend_plan (state : pm_message_t) (dv : device) : list slot :=
  [ (TClass, pick (pm_of_class (dev_class dv)) suspend OpSuspend
               (legacy_suspend_of_class state (dev_class dv)) OpLegacySuspend);
    (TType, pick (pm_of_type (dev_type dv)) suspend OpSuspend None OpLegacySuspend);
    (TBus, pick (pm_of_bus (dev_bus dv)) suspend OpSuspend
             (legacy_suspend_of_bus state (dev_bus dv)) OpLegacySuspend) ].

Definition resume_plan (dv : device) : list slot :=
  [ (TBus, pick (pm_of_bus (dev_bus dv)) resume OpResume
             (legacy_resume_of_bus (dev_bus dv)) OpLegacyResume);
    (TType, pick (pm_of_type (dev_type dv)) resume OpResume None OpLegacyResume);
    (TClass, pick (pm_of_class (dev_class dv)) resume OpResume
               (legacy_resume_of_class (dev_class dv)) OpLegacyResume) ].

Definition prepare_plan (dv : device) : list slot :=
  [ (TBus, pick (pm_of_bus (dev_bus dv)) prepare OpPrepare None OpPrepare);
    (TType, pick (pm_of_type (dev_type dv)) prepare OpPrepare None OpPrepare);
    (TClass, pick (pm_of_class (dev_class dv)) prepare OpPrepare None OpPrepare) ].

Definition suspend_noirq_plan (dv : device) : list slot :=
  [ (TClass, pick (pm_of_class (dev_class dv)) suspend_noirq OpSuspendNoirq
               None OpSuspendNoirq);
    (TType, pick (pm_of_type (dev_type dv)) suspend_noirq OpSuspendNoirq
              None OpSuspendNoirq);
    (TBus, pick (pm_of_bus (dev_bus dv)) suspend_noirq OpSuspendNoirq
             None OpSuspendNoirq) ].

Definition resume_noirq_plan (dv : device) : list slot :=
  [ (TBus, pick (pm_of_bus (dev_bus dv)) resume_noirq OpResumeNoirq
             None OpResumeNoirq);
    (TType, pick (pm_of_type (dev_type dv)) resume_noirq OpResumeNoirq
              None OpResumeNoirq);
    (TClass, pick (pm_of_class (dev_class dv)) resume_noirq OpResumeNoirq
               None OpResumeNoirq) ].

Fixpoint run_plan (d : dev_id) (plan : list slot) : M Z :=
  match plan with
  | [] => ret 0
  | (_, None) :: r => run_plan d r
  | (t, Some (o, cb)) :: r =>
      e <- invoke d t o cb ;;
      if negb (e =? 0) then ret e else run_plan d r
  end.

(** What running a plan comes to when no timer is pending: the result,
    the world afterwards and the events logged, newest first. *)
Fixpoint plan_eval (d : dev_id) (plan : list slot) (w : world)
    : Z * world * list event_t :=
  match plan with
  | [] => (0, w, [])
  | (_, None) :: r => plan_eval d r w
  | (t, Some (o, cb)) :: r =>
      let e := fst (cb w) in
      let here := [EvReturn d t o e; EvCall d t o] in
      if negb (e =? 0) then (e, snd (cb w), here)
      else
        let '(e', w', later) := plan_eval d r (snd (cb w)) in
        (e', w', later ++ here)
  end.

Definition after_plan (d : dev_id) (plan : list slot) (s : state) : state :=
  let '(_, w, new) := plan_eval d plan (env s) in
  with_trace (new ++ trace s) (with_env w s).

Definition plan_result (d : dev_id) (plan : list slot) (s : state) : Z :=
  fst (fst (plan_eval d plan (env s))).





(** The switches [is_async] reads, for device [y]. *)
Definition switches (y : dev_id) (am en tr : bool) (s : state) : Prop :=
  power_async_suspend (power (devs s y)) = am
  /\ pm_async_enabled s = en
  /\ pm_trace_enabled s = tr.

(** Device [y] is at status [v] and no task for it is queued. *)
Definition idle_at (y : dev_id) (v : dpm_state) (s : state) : Prop :=
  dev_status s y = v /\ Forall (fun t => task_dev t <> y) (async_pending s).


(** Device [y] is suspended or has been resumed. *)
Definition off_or_resumed (y : dev_id) (s : state) : Prop :=
  dpm_ge (dev_status s y) DPM_OFF = true \/ dev_status s y = DPM_RESUMING.

(** Device [y] has been suspended, unless an async suspend has failed. *)
Definition suspended_or_failed (y : dev_id) (s : state) : Prop :=
  async_error s <> 0 \/ dev_status s y = DPM_OFF.



(** [s'] differs from [s] only by what driver callbacks do: the world
    has moved on and the trace has grown. *)
Definition callbacks_only (s s' : state) : Prop :=
  s' = with_trace (trace s') (with_env (env s') s) /\ extends (trace s) s'.

(** The status [dpm_resume_noirq] leaves a device of [dpm_list] at. *)
Definition out_of_noirq (v : dpm_state) : dpm_state :=
  if dpm_gt v DPM_OFF then DPM_OFF else v.


(** Events that name device [d]: its callbacks and its runtime-PM
    reference. *)
Definition mentions (d : dev_id) (e : event_t) : bool :=
  match e with
  | EvCall x _ _ => Nat.eqb x d
  | EvReturn x _ _ _ => Nat.eqb x d
  | EvRuntimeGet x => Nat.eqb x d
  | EvRuntimePut x => Nat.eqb x d
  | _ => false
  end.

Definition silent_since (d : dev_id) (base : list event_t) (s : state) : Prop :=
  exists new,
    trace s = new ++ base /\ Forall (fun e => mentions d e = false) new.

(** What one event adds to the runtime-PM references held on [d]: a
    call of [pm_runtime_get_noresume] takes one, a call of
    [pm_runtime_put_sync] gives one back. *)
Definition ref_step (d : dev_id) (e : event_t) : Z :=
  match e with
  | EvRuntimeGet x => if Nat.eqb x d then 1 else 0
  | EvRuntimePut x => if Nat.eqb x d then - 1 else 0
  | _ => 0
  end.

(** The calls of [pm_runtime_get_noresume] for [d] logged on [tr], less
    the calls of [pm_runtime_put_sync] for it. *)
Fixpoint runtime_refs (d : dev_id) (tr : list event_t) : Z :=
  match tr with
  | [] => 0
  | e :: r => ref_step d e + runtime_refs d r
  end.

End Vocabulary.

(** ** Concrete machines for the examples

    The world is a tick counter paired with the number of callbacks run
    so far; a callback built by [answer r ticks] returns [r] after
    [ticks] ticks. *)

Module Fixture.

Definition tick_world : Platform :=
  {| world := Z * nat; jiffies := fst; HZ := 100 |}.

Definition answer (r ticks : Z) : @callback tick_world :=
  fun w => (r, (fst w + ticks, S (snd w))).

(** Returns [first] when it is the first callback run, [later] after. *)
Definition answer_once (first later : Z) : @callback tick_world :=
  fun w => (if Nat.eqb (snd w) 0 then first else later, (fst w + 1, S (snd w))).

Definition ops (p s r : option (@callback tick_world)) : @dev_pm_ops tick_world :=
  {| prepare := p; complete := Some (fun w => (fst w + 1, S (snd w)));
     suspend := s; resume := r;
     suspend_noirq := s; resume_noirq := r |}.

Definition on_bus (pm : @dev_pm_ops tick_world) : option (@bus_type tick_world) :=
  Some {| bus_pm := Some pm; bus_suspend := None; bus_resume := None |}.

Definition mk_device (par : option dev_id) (ch : list dev_id)
    (b : option (@bus_type tick_world)) (st : dpm_state) (done async wake : bool)
    (barrier : Z) : @device tick_world :=
  {| parent := par; children := ch; dev_bus := b; dev_type := None;
     dev_class := None;
     power := {| status := st; completion_done := done;
                 power_async_suspend := async; may_wakeup := wake |};
     runtime_barrier := fun w => (barrier, w) |}.

Definition absent : @device tick_world :=
  mk_device None [] None DPM_ON true false false 0.

Definition machine (ds : dev_id -> @device tick_world) (l : list dev_id)
    (async_enabled : bool) : @state tick_world :=
  {| devs := ds; dpm_list := l; transition_started := false;
     pm_transition := PMSG_ON; async_error := 0;
     pm_async_enabled := async_enabled; pm_trace_enabled := false;
     async_pending := []; timers := []; current := 0%nat;
     env := (0, 0%nat); trace := [] |}.

(** A parent 0 with one child 1, both on a bus whose callbacks succeed;
    [r0] is what the parent's suspend callback returns. *)
Definition parent_child (r0 : Z) (st : dpm_state) (async : bool)
    : dev_id -> @device tick_world :=
  fun d =>
    match d with
    | 0%nat => mk_device None [1%nat]
                 (on_bus (ops (Some (answer 0 1)) (Some (answer r0 1)) (Some (answer 0 1))))
                 st true async false 0
    | 1%nat => mk_device (Some 0%nat) []
                 (on_bus (ops (Some (answer 0 1)) (Some (answer 0 1)) (Some (answer 0 1))))
                 st true async false 0
    | _ => absent
    end.

(** Device 0 is marked for async suspend, device 1 has its completion
    re-armed; the global async switch is off. *)
Definition marked_subordinate : dev_id -> @device tick_world :=
  fun d =>
    match d with
    | 0%nat => mk_device None [] None DPM_ON true true false 0
    | 1%nat => mk_device None [] None DPM_ON false false false 0
    | _ => absent
    end.

(** Device 0's prepare callback says -EAGAIN the first time it is
    called and 0 afterwards. *)
Definition retry_once : dev_id -> @device tick_world :=
  fun d =>
    match d with
    | 0%nat => mk_device None []
                 (on_bus (ops (Some (answer_once (- EAGAIN) 0)) None None))
                 DPM_ON true false false 0
    | _ => absent
    end.

(** Device 0 has a runtime-PM request pending and may wake the system
    up; device 1 is an ordinary device with a prepare callback. *)
Definition wakeup_pending : dev_id -> @device tick_world :=
  fun d =>
    match d with
    | 0%nat => mk_device None []
                 (on_bus (ops (Some (answer 0 1)) None None))
                 DPM_ON true false true 1
    | 1%nat => mk_device None []
                 (on_bus (ops (Some (answer 0 1)) None None))
                 DPM_ON true false false 0
    | _ => absent
    end.

(** Device 0's suspend callback takes 1300 ticks, more than the
    watchdog's [HZ * 12 = 1200]. *)
Definition slow_suspend : dev_id -> @device tick_world :=
  fun d =>
    match d with
    | 0%nat => mk_device None []
                 (on_bus (ops None (Some (answer 0 1300)) None))
                 DPM_SUSPENDING true false false 0
    | _ => absent
    end.

(** Three unrelated devices on [dpm_list]; the suspend callback of
    device 1 fails with -5, the others succeed. *)
Definition failing_middle : dev_id -> @device tick_world :=
  fun d =>
    match d with
    | 0%nat | 2%nat =>
        mk_device None []
          (on_bus (ops (Some (answer 0 1)) (Some (answer 0 1)) (Some (answer 0 1))))
          DPM_ON true false false 0
    | 1%nat =>
        mk_device None []
          (on_bus (ops (Some (answer 0 1)) (Some (answer (-5) 1)) (Some (answer 0 1))))
          DPM_ON true false false 0
    | _ => absent
    end.

End Fixture.

(** * Properties *)

Section Logic.
Context {PF : Platform}.

Lemma wp_bind {A B : Type} (m : M A) (f : A -> M B) Q E s :
  wp m (fun a s' => wp (f a) Q E s') E s -> wp (bind m f) Q E s.
Proof. unfold wp, bind. destruct (m s); auto. Qed.


Lemma wp_conseq {A : Type} (m : M A) (Q Q' : A -> state -> Prop)
    (E E' : abort -> state -> Prop) s :
  wp m Q E s ->
  (forall a s', Q a s' -> Q' a s') ->
  (forall k s', E k s' -> E' k s') ->
  wp m Q' E' s.
Proof. unfold wp. destruct (m s); auto. Qed.

Lemma wp_ret {A : Type} (a : A) (Q : A -> state -> Prop) E s :
  Q a s -> wp (ret a) Q E s.
Proof. auto. Qed.

Lemma wp_get {A : Type} (f : state -> A) (Q : A -> state -> Prop) E s :
  Q (f s) s -> wp (get f) Q E s.
Proof. auto. Qed.

Lemma wp_modify (f : state -> state) (Q : unit -> state -> Prop) E s :
  Q tt (f s) -> wp (modify f) Q E s.
Proof. auto. Qed.

Lemma wp_block {A : Type} (Q : A -> state -> Prop) E s :
  E ABlocked s -> wp block Q E s.
Proof. auto. Qed.

Lemma wp_out_of_fuel {A : Type} (Q : A -> state -> Prop) E s :
  E ANoFuel s -> wp out_of_fuel Q E s.
Proof. auto. Qed.

Lemma wp_BUG {A : Type} (Q : A -> state -> Prop) (E : abort -> state -> Prop) s :
  E ACrashed (with_trace (EvBUG :: trace s) s) -> wp BUG Q E s.
Proof. auto. Qed.

Lemma wp_ret_eq {A : Type} (m : M A) (Q : A -> state -> Prop) E s a s' :
  m s = Ret a s' -> wp m Q E s -> Q a s'.
Proof. unfold wp. intros ->. auto. Qed.

Lemma wp_crash_eq {A : Type} (m : M A) (Q : A -> state -> Prop) E s s' :
  m s = Crashed s' -> wp m Q E s -> E ACrashed s'.
Proof. unfold wp. intros ->. auto. Qed.

Lemma wp_final {A : Type} (m : M A) (I : state -> Prop) s :
  wp m (fun _ => I) (fun _ => I) s -> I (final (m s)).
Proof. unfold wp. destruct (m s); auto. Qed.

Lemma bind_ret_eq {A B : Type} (m : M A) (f : A -> M B) s a s' :
  m s = Ret a s' -> bind m f s = f a s'.
Proof. unfold bind. intros ->. reflexivity. Qed.


End Logic.

(** One step of symbolic execution of a [wp] goal. *)
Ltac wp_step :=
  lazymatch goal with
  | |- wp (bind _ _) _ _ _ => apply wp_bind
  | |- wp (ret _) _ _ _ => apply wp_ret
  | |- wp (get _) _ _ _ => apply wp_get
  | |- wp (modify _) _ _ _ => apply wp_modify
  | |- wp block _ _ _ => apply wp_block
  | |- wp out_of_fuel _ _ _ => apply wp_out_of_fuel
  | |- wp BUG _ _ _ => apply wp_BUG
  | |- wp (log _) _ _ _ => unfold log
  | |- wp mutex_lock _ _ _ => unfold mutex_lock
  | |- wp mutex_unlock _ _ _ => unfold mutex_unlock
  | |- wp (pm_dev_err _ _) _ _ _ => unfold pm_dev_err
  | |- wp (set_status _ _) _ _ _ => unfold set_status
  | |- wp (INIT_COMPLETION _) _ _ _ => unfold INIT_COMPLETION
  | |- wp (complete_all _) _ _ _ => unfold complete_all
  | |- wp (add_timer _) _ _ _ => unfold add_timer
  | |- wp (del_timer_sync _) _ _ _ => unfold del_timer_sync
  | |- wp (pm_runtime_get_noresume _) _ _ _ => unfold pm_runtime_get_noresume
  | |- wp (pm_runtime_put_sync _) _ _ _ => unfold pm_runtime_put_sync
  | |- wp (if ?b then _ else _) _ _ _ => destruct b eqn:?
  | |- wp (match ?x with _ => _ end) _ _ _ => destruct x eqn:?
  end; cbv beta.

Ltac wp_run := repeat wp_step.

(** Projections of updated states. *)
Ltac st_simpl :=
  cbn [devs dpm_list transition_started pm_transition async_error
       pm_async_enabled pm_trace_enabled async_pending timers current env
       trace with_devs with_dpm_list with_transition_started
       with_pm_transition with_async_error with_async_pending with_timers
       with_current with_env with_trace].

Tactic Notation "st_simpl" "in" hyp(H) :=
  cbn [devs dpm_list transition_started pm_transition async_error
       pm_async_enabled pm_trace_enabled async_pending timers current env
       trace with_devs with_dpm_list with_transition_started
       with_pm_transition with_async_error with_async_pending with_timers
       with_current with_env with_trace] in H.

(** The same without case analysis: stops at the first branch. *)
Ltac wp_pure :=
  repeat (lazymatch goal with
          | |- wp (bind _ _) _ _ _ => apply wp_bind
          | |- wp (ret _) _ _ _ => apply wp_ret
          | |- wp (get _) _ _ _ => apply wp_get
          | |- wp (modify _) _ _ _ => apply wp_modify
          | |- wp (log _) _ _ _ => unfold log
          | |- wp mutex_lock _ _ _ => unfold mutex_lock
          | |- wp mutex_unlock _ _ _ => unfold mutex_unlock
          | |- wp (set_status _ _) _ _ _ => unfold set_status
          end; cbv beta).

Section Basics.
Context {PF : Platform}.

Lemma wp_any {A : Type} (m : M A) (Q : A -> state -> Prop)
    (E : abort -> state -> Prop) s :
  (forall a s', Q a s') -> (forall k s', E k s') -> wp m Q E s.
Proof. intros HQ HE. unfold wp. destruct (m s); auto. Qed.

Lemma upd_dev_same d f (m : dev_id -> device) : upd_dev d f m d = f (m d).
Proof. unfold upd_dev. now rewrite Nat.eqb_refl. Qed.

Lemma upd_dev_other d x f (m : dev_id -> device) :
  x <> d -> upd_dev d f m x = m x.
Proof.
  intros H. unfold upd_dev.
  destruct (Nat.eqb_spec x d); [contradiction | reflexivity].
Qed.

Lemma held_cons e tr :
  held (e :: tr) =
  match e with EvLock => true | EvUnlock => false | _ => held tr end.
Proof. destruct e; reflexivity. Qed.

End Basics.

(** ** The wait on a completion (dpm_wait and its callers) *)

Section Waits.
Context {PF : Platform}.
Variable yield : M unit.

Lemma dpm_wait_unfold (d : dev_id) (async : bool) (s : state) :
  dpm_wait yield (Some d) async s =
  if async || (pm_async_enabled s && power_async_suspend (power (devs s d)))
  then wait_for_completion yield d s
  else Ret tt s.
Proof.
  unfold dpm_wait, bind, get.
  destruct (async || _); reflexivity.
Qed.

Lemma for_each_child_sequential (l : list dev_id) (s : state) :
  pm_async_enabled s = false ->
  for_each_child l (dpm_wait_fn yield false) s = Ret 0 s.
Proof.
  intros Hseq. induction l as [|c r IH]; [reflexivity|].
  cbn [for_each_child]. unfold bind at 1. unfold dpm_wait_fn at 1.
  unfold bind at 1. rewrite dpm_wait_unfold, Hseq. cbn. exact IH.
Qed.

Lemma dpm_wait_for_children_sequential (d : dev_id) (s : state) :
  pm_async_enabled s = false ->
  dpm_wait_for_children yield d false s = Ret tt s.
Proof.
  intros Hseq. unfold dpm_wait_for_children, device_for_each_child, bind, get.
  now rewrite for_each_child_sequential.
Qed.

End Waits.

Section WaitClaims.
Context {PF : Platform}.

(** C9.  [dpm_wait] enters [wait_for_completion] exactly
    when [async] is set or the global switch is on and the device is
    marked; otherwise it returns at once and leaves the state alone,
    whatever the completion's state.  With the global switch off the
    waits of the phase drivers, which pass [async = false], are no-ops;
    [device_pm_wait_for_dev] passes the subordinate's own mark as
    [async], so it still waits when the subordinate is marked.  A task
    that waits with nobody to run finds the completion signaled or stays
    blocked. *)
Theorem dpm_wait_blocks_only_when_async (yield : M unit) (s : state)
    (Hseq : pm_async_enabled s = false) :
  (forall s0 d async,
      dpm_wait yield (Some d) async s0 =
      if async || (pm_async_enabled s0 && power_async_suspend (power (devs s0 d)))
      then wait_for_completion yield d s0
      else Ret tt s0)
  /\ (forall s0 async, dpm_wait yield None async s0 = Ret tt s0)
  /\ (forall d, dpm_wait yield (Some d) false s = Ret tt s)
  /\ (forall d, dpm_wait_for_children yield d false s = Ret tt s)
  /\ (forall sub dev,
        device_pm_wait_for_dev yield sub dev s =
        if power_async_suspend (power (devs s sub))
        then wait_for_completion yield dev s
        else Ret tt s)
  /\ (forall s0 d,
        wait_for_completion block d s0 =
        if dev_done s0 d
        then Ret tt (with_trace (EvWait d :: trace s0) s0)
        else Blocked (with_trace (EvWait d :: trace s0) s0)).
Proof.
  repeat split.
  - intros. apply dpm_wait_unfold.
  - intros. rewrite dpm_wait_unfold, Hseq. reflexivity.
  - intros. now apply dpm_wait_for_children_sequential.
  - intros sub dev. unfold device_pm_wait_for_dev, bind, get.
    rewrite dpm_wait_unfold, Hseq.
    destruct (power_async_suspend (power (devs s sub))); reflexivity.
  - intros s0 d. unfold wait_for_completion, bind, get, log, modify, dev_done.
    cbn. destruct (completion_done (power (devs s0 d))); reflexivity.
Qed.

End WaitClaims.

Lemma dpm_wait_blocks_only_when_async_witness :
  dpm_wait schedule (Some 1%nat) false
    (Fixture.machine Fixture.marked_subordinate [0%nat; 1%nat] false)
  = Ret tt (Fixture.machine Fixture.marked_subordinate [0%nat; 1%nat] false).
Proof.
  exact (proj1 (proj2 (proj2
    (dpm_wait_blocks_only_when_async schedule
       (Fixture.machine Fixture.marked_subordinate [0%nat; 1%nat] false)
       eq_refl))) 1%nat).
Defined.

(** C9 as stated fails: with the global async switch off and no worker
    queued, [device_pm_wait_for_dev] called for a subordinate that is
    marked async does wait on the other device's completion, and blocks
    when that completion is not signaled. *)
Lemma device_pm_wait_for_dev_waits_in_sequential_mode :
  let st := Fixture.machine Fixture.marked_subordinate [0%nat; 1%nat] false in
  pm_async_enabled st = false
  /\ async_pending st = []
  /\ dev_done st 1%nat = false
  /\ device_pm_wait_for_dev schedule 0%nat 1%nat st
     = Blocked (with_trace [EvWait 1%nat] st).
Proof. cbv zeta. repeat apply conj; vm_compute; reflexivity. Qed.

(** ** The callback runner: tier order, structured before legacy *)

Ltac split_outcomes :=
  repeat
    match goal with
    | |- context [match invoke ?d ?t ?o ?c ?s with _ => _ end] =>
        destruct (invoke d t o c s) as [? ?| | |]; try reflexivity
    | |- context [negb (?a =? 0)] =>
        destruct (Z.eqb_spec a 0); cbn [negb ret]; cbv beta;
        try reflexivity; try congruence;
        try (subst; reflexivity)
    end.

Section Tiers.
Context {PF : Platform}.

Lemma bind_ret_r {A : Type} (m : M A) (s : state) :
  bind m (fun a => ret a) s = m s.
Proof. unfold bind, ret. destruct (m s); reflexivity. Qed.

Lemma last_slot (m : M Z) (s : state) :
  bind m (fun e => if negb (e =? 0) then ret e else ret 0) s = m s.
Proof.
  unfold bind, ret. destruct (m s) as [e s'| | |]; try reflexivity.
  destruct (Z.eqb_spec e 0); cbn; congruence.
Qed.

Lemma suspend_callbacks_plan (d : dev_id) (msg : pm_message_t) (s : state) :
  device_suspend_callbacks d msg s = run_plan d (suspend_plan msg (devs s d)) s.
Proof.
  unfold device_suspend_callbacks, suspend_plan, suspend_class, suspend_type,
    suspend_bus, legacy_suspend, dpm_run_callback, pick,
    legacy_suspend_of_class, legacy_suspend_of_bus, pm_of_class, pm_of_type,
    pm_of_bus.
  unfold bind at 1. unfold get at 1.
  destruct (dev_class (devs s d)) as [c|];
    [destruct (class_pm c) as [cpm|];
     [destruct (suspend cpm)|destruct (class_suspend c)]|];
  (destruct (dev_type (devs s d)) as [t|];
    [destruct (type_pm t) as [tpm|]; [destruct (suspend tpm)|]|]);
  (destruct (dev_bus (devs s d)) as [b|];
    [destruct (bus_pm b) as [bpm|];
     [destruct (suspend bpm)|destruct (bus_suspend b)]|]);
  cbn [run_plan];
  repeat (unfold bind at 1; cbn [ret Z.eqb negb]);
  try reflexivity.
  all: split_outcomes.
Qed.

Lemma resume_callbacks_plan (d : dev_id) (s : state) :
  device_resume_callbacks d s = run_plan d (resume_plan (devs s d)) s.
Proof.
  unfold device_resume_callbacks, resume_plan, resume_class, resume_type,
    resume_bus, dpm_run_callback, pick,
    legacy_resume_of_class, legacy_resume_of_bus, pm_of_class, pm_of_type,
    pm_of_bus.
  unfold bind at 1. unfold get at 1.
  destruct (dev_bus (devs s d)) as [bus|];
    [destruct (bus_pm bus) as [bpm|];
     [destruct (resume bpm)|destruct (bus_resume bus)]|];
  (destruct (dev_type (devs s d)) as [ty|];
    [destruct (type_pm ty) as [tpm|]; [destruct (resume tpm)|]|]);
  (destruct (dev_class (devs s d)) as [cls|];
    [destruct (class_pm cls) as [cpm|];
     [destruct (resume cpm)|destruct (class_resume cls)]|]);
  cbn [run_plan];
  repeat (unfold bind at 1; cbn [ret Z.eqb negb]);
  try reflexivity.
  all: split_outcomes.
Qed.


(** Any property of [run_plan] on every state carries over to the
    tiers of the two bodies. *)
Lemma wp_suspend_callbacks (d : dev_id) (msg : pm_message_t) Q E s :
  wp (run_plan d (suspend_plan msg (devs s d))) Q E s ->
  wp (device_suspend_callbacks d msg) Q E s.
Proof. unfold wp. now rewrite suspend_callbacks_plan. Qed.

Lemma wp_resume_callbacks (d : dev_id) Q E s :
  wp (run_plan d (resume_plan (devs s d))) Q E s ->
  wp (device_resume_callbacks d) Q E s.
Proof. unfold wp. now rewrite resume_callbacks_plan. Qed.

End Tiers.

(** ** The completion is signaled whenever a body returns *)

Ltac wp_skip :=
  apply wp_bind; apply wp_any; [intros ? ? | intros; exact I].

Section Completion.
Context {PF : Platform}.
Variable yield : M unit.

Lemma complete_all_signals (d : dev_id) (s : state) :
  wp (complete_all d) (fun _ => signaled d) (fun _ _ => True) s.
Proof.
  wp_run. split.
  - unfold dev_done. cbn. now rewrite upd_dev_same.
  - eexists. reflexivity.
Qed.

Lemma device_suspend_signals (d : dev_id) (msg : pm_message_t) (async : bool) s :
  wp (__device_suspend yield d msg async) (fun _ => signaled d) (fun _ _ => True) s.
Proof.
  unfold __device_suspend.
  do 4 wp_skip. wp_skip.
  apply wp_bind. eapply wp_conseq; [apply complete_all_signals | | auto].
  intros ? ? Hs. exact Hs.
Qed.

Lemma device_resume_signals (d : dev_id) (msg : pm_message_t) (async : bool) s :
  wp (device_resume yield d msg async) (fun _ => signaled d) (fun _ _ => True) s.
Proof.
  unfold device_resume.
  do 4 wp_skip.
  apply wp_bind. eapply wp_conseq; [apply complete_all_signals | | auto].
  intros ? ? Hs. exact Hs.
Qed.

(** C7.  When the suspend body or the resume body of a device returns,
    with whatever result, its last action has been [complete_all] on the
    device's completion, which is therefore signaled; and unregistering
    a device signals its completion before taking it off [dpm_list]. *)
Theorem completion_signaled_on_every_return (d : dev_id) (msg : pm_message_t)
    (async : bool) (s s' : state) (e : Z)
    (H : __device_suspend yield d msg async s = Ret e s'
         \/ device_resume yield d msg async s = Ret e s') :
  (dev_done s' d = true /\ exists tr, trace s' = EvCompleteAll d :: tr)
  /\ exists s2,
       device_pm_remove d s = Ret tt s2
       /\ dev_done s2 d = true
       /\ trace s2 = EvUnlock :: EvLock :: EvCompleteAll d :: trace s
       /\ ~ In d (dpm_list s2).
Proof.
  split.
  - destruct H as [H | H].
    + exact (wp_ret_eq _ _ _ _ _ _ H (device_suspend_signals d msg async s)).
    + exact (wp_ret_eq _ _ _ _ _ _ H (device_resume_signals d msg async s)).
  - eexists. split; [reflexivity|]. cbn. repeat split.
    + unfold dev_done. cbn. now rewrite upd_dev_same.
    + unfold list_del. intros Hin. apply filter_In in Hin.
      destruct Hin as [_ Hne]. now rewrite Nat.eqb_refl in Hne.
Qed.

End Completion.

(** ** The suspend watchdog *)

Section Watchdog.
Context {PF : Platform}.

Variables (d : dev_id) (tm : timer_list) (others : list timer_list)
          (base : list event_t).

Let G := guarded_by d tm others base.
Let E := fun (k : abort) (s : state) =>
           k = ACrashed /\ died_in_watchdog d tm others base s.

Lemma invoke_guarded (t : tier) (o : op) (cb : callback) (s : state) :
  G s -> wp (invoke d t o cb) (fun _ => G) E s.
Proof.
  intros [Htm [mid [Htr Hmid]]]. unfold invoke, run_timers, dpm_drv_timeout.
  wp_run; cbn in *.
  - split; [reflexivity|].
    exists t0, t, o, mid. rewrite Htr. repeat split; auto.
    + apply find_some in Heqo0. destruct Heqo0 as [Hin _].
      now rewrite <- Htm.
    + apply find_some in Heqo0. now destruct Heqo0.
  - split; [assumption|].
    exists (EvReturn d t o (fst (cb (env s))) :: EvCall d t o :: mid).
    rewrite Htr. split; [reflexivity|].
    repeat constructor; cbn; auto using Nat.eqb_refl.
Qed.

Lemma run_plan_guarded (plan : list slot) (s : state) :
  G s -> wp (run_plan d plan) (fun _ => G) E s.
Proof.
  revert s. induction plan as [|[t [[o cb]|]] r IH]; intros s HG; cbn [run_plan].
  - wp_run. exact HG.
  - apply wp_bind. eapply wp_conseq; [apply invoke_guarded; exact HG | | auto].
    intros e s' HG'. cbv beta. wp_run; auto.
  - auto.
Qed.

Lemma device_suspend_guarded_keeps_watchdog (msg : pm_message_t) (s : state) :
  G s -> wp (device_suspend_guarded d msg) (fun _ => G) E s.
Proof.
  intros HG. unfold device_suspend_guarded. wp_run; [exact HG|].
  apply wp_suspend_callbacks.
  eapply wp_conseq; [apply run_plan_guarded; exact HG | | auto].
  intros e s' HG'. cbv beta. wp_run; exact HG'.
Qed.

End Watchdog.

Section WatchdogClaim.
Context {PF : Platform}.
Variable yield : M unit.

Lemma del_first_head (t : timer_list) (l : list timer_list) :
  del_first t (t :: l) = l.
Proof. cbn. unfold same_timer. now rewrite !Nat.eqb_refl. Qed.

(** C8.  Once the wait for the children is over, the suspend body arms
    a watchdog for [jiffies + HZ * 12] on behalf of the current task,
    before any callback.  If the body returns, on whatever path and with
    whatever result, every callback event lies between the arming and
    [del_timer_sync], and the set of pending timers is what it was
    before the arming.  The only other way out is that a pending
    timer's deadline was reached while a callback of the device had not
    returned: the handler printed the device, dumped the stack of the
    task that armed the timer and called BUG(), and nothing ran after
    that.  The handler itself always ends in BUG(). *)
Theorem watchdog_disarmed_or_fatal (d : dev_id) (msg : pm_message_t)
    (async : bool) (s s1 : state)
    (Hwait : dpm_wait_for_children yield d async s = Ret tt s1) :
  let tm := watchdog_timer d s1 in
  expires tm = ulong (jiffies (env s1) + HZ * 12)
  /\ timer_tsk tm = current s1
  /\ match __device_suspend yield d msg async s with
     | Ret e s' =>
         timers s' = timers s1
         /\ exists mid,
              trace s' = EvCompleteAll d :: EvDelTimer d
                         :: mid ++ EvAddTimer d (timer_tsk tm) (expires tm)
                         :: trace s1
              /\ Forall (fun ev => callback_of d ev = true) mid
     | Crashed s' => died_in_watchdog d tm (timers s1) (trace s1) s'
     | Blocked _ => False
     | NoFuel _ => False
     end
  /\ forall data s0,
       dpm_drv_timeout data s0 =
       Crashed (with_trace (EvBUG :: EvShowStack (timer_tsk data)
                            :: EvTimeout (timer_dev data) :: trace s0) s0).
Proof.
  cbv zeta. split; [reflexivity|]. split; [reflexivity|]. split; [|reflexivity].
  unfold __device_suspend. rewrite (bind_ret_eq _ _ _ _ _ Hwait).
  set (tm := watchdog_timer d s1).
  set (Q := fun (e : Z) (s' : state) =>
              timers s' = timers s1
              /\ exists mid,
                   trace s' = EvCompleteAll d :: EvDelTimer d
                              :: mid ++ EvAddTimer d (timer_tsk tm) (expires tm)
                              :: trace s1
                   /\ Forall (fun ev => callback_of d ev = true) mid).
  set (E := fun (k : abort) (s' : state) =>
              k = ACrashed /\ died_in_watchdog d tm (timers s1) (trace s1) s').
  match goal with
  | |- match ?m s1 with _ => _ end =>
      assert (H : wp m Q E s1)
  end.
  { wp_run. fold tm.
    eapply wp_conseq;
      [apply (device_suspend_guarded_keeps_watchdog d tm (timers s1) (trace s1))
      | | intros k s' Hk; exact Hk].
    - split; [reflexivity|]. exists []. split; [reflexivity|constructor].
    - intros e s' [Htm [mid [Htr Hmid]]]. cbv beta. wp_run.
      unfold Q. cbn. split.
      + rewrite Htm. apply del_first_head.
      + exists mid. rewrite Htr. split; [reflexivity|assumption]. }
  unfold wp in H.
  match goal with
  | |- match ?x with _ => _ end => destruct x
  end; unfold Q, E in H; try tauto; destruct H; discriminate.
Qed.

End WatchdogClaim.

(** ** Invariants that every body keeps *)

Section KeepsRules.
Context {PF : Platform}.
Variable I : state -> Prop.

Lemma keeps_bind {A B : Type} (m : M A) (f : A -> M B) :
  keeps I m -> (forall a, keeps I (f a)) -> keeps I (bind m f).
Proof.
  intros Hm Hf s Hs. apply wp_bind.
  eapply wp_conseq; [apply Hm; exact Hs | | auto].
  intros a s' Hs'. now apply Hf.
Qed.

Lemma keeps_ret {A : Type} (a : A) : keeps I (ret a).
Proof. intros s Hs. exact Hs. Qed.

Lemma keeps_get {A : Type} (f : state -> A) : keeps I (get f).
Proof. intros s Hs. exact Hs. Qed.

Lemma keeps_modify (g : state -> state) :
  (forall s, I s -> I (g s)) -> keeps I (modify g).
Proof. intros Hg s Hs. now apply Hg. Qed.

Lemma keeps_block {A : Type} : keeps I (@block _ A).
Proof. intros s Hs. exact Hs. Qed.

Lemma keeps_out_of_fuel {A : Type} : keeps I (@out_of_fuel _ A).
Proof. intros s Hs. exact Hs. Qed.

Lemma keeps_log (e : event_t) :
  (forall s, I s -> I (with_trace (e :: trace s) s)) -> keeps I (log e).
Proof. intros He. unfold log. now apply keeps_modify. Qed.

Lemma keeps_final {A : Type} (m : M A) (s : state) :
  keeps I m -> I s -> I (final (m s)).
Proof. intros Hm Hs. apply wp_final. now apply Hm. Qed.

Lemma keeps_ret_eq {A : Type} (m : M A) (s s' : state) (a : A) :
  keeps I m -> I s -> m s = Ret a s' -> I s'.
Proof.
  intros Hm Hs Heq. specialize (Hm s Hs). unfold wp in Hm.
  now rewrite Heq in Hm.
Qed.

End KeepsRules.

Ltac keeps_step :=
  lazymatch goal with
  | |- keeps _ (bind _ _) => apply keeps_bind; [ | intro ]
  | |- keeps _ (ret _) => apply keeps_ret
  | |- keeps _ (get _) => apply keeps_get
  | |- keeps _ block => apply keeps_block
  | |- keeps _ out_of_fuel => apply keeps_out_of_fuel
  | |- keeps _ (modify _) => apply keeps_modify; intros
  | |- keeps _ (log _) => apply keeps_log; intros
  | |- keeps _ (if ?b then _ else _) => destruct b
  | |- keeps _ (match ?x with _ => _ end) => destruct x
  end.

Ltac keeps_run := repeat (keeps_step; auto); auto.

Section StableBodies.
Context {PF : Platform}.
Variable yield : M unit.
Variable I : state -> Prop.
Variable x : dev_id.

Hypothesis Hplain :
  forall s e, plain e = true -> I s -> I (with_trace (e :: trace s) s).
Hypothesis Hcall :
  forall s t o, I s -> I (with_trace (EvCall x t o :: trace s) s).
Hypothesis Hreturn :
  forall s t o r, I s -> I (with_trace (EvReturn x t o r :: trace s) s).
Hypothesis Henv : forall s w, I s -> I (with_env w s).
Hypothesis Hstatus :
  forall s v, v <> DPM_INVALID -> I s ->
    I (with_devs (upd_dev x (with_power (set_power_status v))) s).
Hypothesis Hsignal :
  forall s, I s -> I (with_devs (upd_dev x (with_power (set_power_completion true))) s).
Hypothesis Htimers : forall s l, I s -> I (with_timers l s).
Hypothesis Hyield : keeps I yield.

Lemma keeps_BUG {A : Type} : keeps I (@BUG _ A).
Proof. intros s Hs. apply wp_BUG. now apply Hplain. Qed.

Lemma keeps_run_timers : keeps I run_timers.
Proof.
  unfold run_timers, dpm_drv_timeout. keeps_run; try apply keeps_BUG; auto.
Qed.

Lemma keeps_invoke t o cb : keeps I (invoke x t o cb).
Proof. unfold invoke. keeps_run. apply keeps_run_timers. Qed.

Lemma keeps_invoke_void t o cb : keeps I (invoke_void x t o cb).
Proof. unfold invoke_void. keeps_run. apply keeps_run_timers. Qed.

Lemma keeps_run_plan plan : keeps I (run_plan x plan).
Proof.
  induction plan as [|[t [[o cb]|]] r IH]; cbn [run_plan]; keeps_run.
  apply keeps_invoke.
Qed.

Lemma keeps_suspend_callbacks msg : keeps I (device_suspend_callbacks x msg).
Proof.
  intros s Hs. apply wp_suspend_callbacks. now apply keeps_run_plan.
Qed.

Lemma keeps_resume_callbacks : keeps I (device_resume_callbacks x).
Proof.
  intros s Hs. apply wp_resume_callbacks. now apply keeps_run_plan.
Qed.

Lemma keeps_dpm_run_callback t o cb : keeps I (dpm_run_callback x t o cb).
Proof. unfold dpm_run_callback. keeps_run. apply keeps_invoke. Qed.

Lemma keeps_wait d : keeps I (wait_for_completion yield d).
Proof. unfold wait_for_completion. keeps_run. Qed.

Lemma keeps_dpm_wait d async : keeps I (dpm_wait yield d async).
Proof. unfold dpm_wait. keeps_run. apply keeps_wait. Qed.

Lemma keeps_for_each_child l async :
  keeps I (for_each_child l (dpm_wait_fn yield async)).
Proof.
  induction l as [|c r IH]; cbn [for_each_child]; keeps_run.
  unfold dpm_wait_fn. keeps_run. apply keeps_dpm_wait.
Qed.

Lemma keeps_wait_for_children d async :
  keeps I (dpm_wait_for_children yield d async).
Proof.
  unfold dpm_wait_for_children, device_for_each_child. keeps_run.
  apply keeps_for_each_child.
Qed.

Lemma keeps_complete_all : keeps I (complete_all x).
Proof. unfold complete_all. keeps_run. Qed.

Lemma keeps_suspend_guarded msg : keeps I (device_suspend_guarded x msg).
Proof.
  unfold device_suspend_guarded, set_status. keeps_run.
  - apply keeps_suspend_callbacks.
  - apply Hstatus; [discriminate | assumption].
Qed.

Lemma keeps___device_suspend msg async : keeps I (__device_suspend yield x msg async).
Proof.
  unfold __device_suspend, add_timer, del_timer_sync. keeps_run.
  - apply keeps_wait_for_children.
  - apply keeps_suspend_guarded.
  - apply keeps_complete_all.
Qed.

Lemma keeps_device_resume msg async : keeps I (device_resume yield x msg async).
Proof.
  unfold device_resume, set_status. keeps_run.
  - apply keeps_dpm_wait.
  - apply Hstatus; [discriminate | assumption].
  - apply keeps_resume_callbacks.
  - apply keeps_complete_all.
Qed.

Lemma keeps_device_complete msg : keeps I (device_complete x msg).
Proof. unfold device_complete. keeps_run; apply keeps_invoke_void. Qed.

Lemma keeps_device_prepare msg : keeps I (device_prepare x msg).
Proof. unfold device_prepare. keeps_run; apply keeps_invoke. Qed.

Lemma keeps_dpm_prepare_one msg : keeps I (dpm_prepare_one x msg).
Proof.
  unfold dpm_prepare_one, pm_runtime_get_noresume, pm_runtime_put_sync,
    pm_runtime_barrier.
  keeps_run. apply keeps_device_prepare.
Qed.

Lemma keeps_device_suspend_noirq msg : keeps I (device_suspend_noirq x msg).
Proof. unfold device_suspend_noirq. keeps_run; apply keeps_dpm_run_callback. Qed.

Lemma keeps_device_resume_noirq msg : keeps I (device_resume_noirq x msg).
Proof. unfold device_resume_noirq. keeps_run; apply keeps_dpm_run_callback. Qed.

End StableBodies.

Section StableWorkers.
Context {PF : Platform}.
Variable I : state -> Prop.
Variable ok : dev_id -> Prop.

Hypothesis Hplain :
  forall s e, plain e = true -> I s -> I (with_trace (e :: trace s) s).
Hypothesis Hcall :
  forall x s t o, ok x -> I s -> I (with_trace (EvCall x t o :: trace s) s).
Hypothesis Hreturn :
  forall x s t o r, ok x -> I s -> I (with_trace (EvReturn x t o r :: trace s) s).
Hypothesis Henv : forall s w, I s -> I (with_env w s).
Hypothesis Hstatus :
  forall x s v, ok x -> v <> DPM_INVALID -> I s ->
    I (with_devs (upd_dev x (with_power (set_power_status v))) s).
Hypothesis Hsignal :
  forall x s, ok x -> I s ->
    I (with_devs (upd_dev x (with_power (set_power_completion true))) s).
Hypothesis Htimers : forall s l, I s -> I (with_timers l s).
Hypothesis Hcurrent : forall s n, I s -> I (with_current n s).
Hypothesis Haerr : forall s e, I s -> I (with_async_error e s).
Hypothesis Hpending_set :
  forall s l, Forall (fun t => ok (task_dev t)) l -> I s ->
    I (with_async_pending l s).
Hypothesis Hpending_ok :
  forall s, I s -> Forall (fun t => ok (task_dev t)) (async_pending s).

Lemma keeps_async_suspend d : ok d -> keeps I (async_suspend block d).
Proof.
  intros Hd. unfold async_suspend, pm_dev_err. keeps_run.
  apply keeps___device_suspend; auto using keeps_block.
Qed.

Lemma keeps_async_resume d : ok d -> keeps I (async_resume block d).
Proof.
  intros Hd. unfold async_resume, pm_dev_err. keeps_run.
  apply keeps_device_resume; auto using keeps_block.
Qed.

Lemma keeps_run_task t : ok (task_dev t) -> keeps I (run_task t).
Proof.
  intros Ht. unfold run_task. keeps_run.
  - apply keeps_async_suspend. exact Ht.
  - apply keeps_async_resume. exact Ht.
Qed.

Lemma keeps_try_task t : ok (task_dev t) -> keeps I (try_task t).
Proof.
  intros Ht s Hs. pose proof (keeps_run_task t Ht s Hs) as H.
  unfold wp, try_task in *. destruct (run_task t s); auto.
Qed.

Lemma sweep_keeps todo s :
  Forall (fun t => ok (task_dev t)) todo -> I s ->
  wp (sweep todo)
     (fun w s' => I s' /\ Forall (fun t => ok (task_dev t)) w)
     (fun _ => I) s.
Proof.
  intros Htodo. revert s.
  induction Htodo as [|t r Ht Hr IH]; intros s Hs; cbn [sweep].
  - wp_run. auto.
  - apply wp_bind.
    eapply wp_conseq; [apply (keeps_try_task t Ht s Hs) | | auto].
    intros ran s1 Hs1. cbv beta. apply wp_bind.
    eapply wp_conseq; [apply (IH s1 Hs1) | | auto].
    intros w s2 [Hs2 Hw]. cbv beta. wp_run. split; [exact Hs2|].
    destruct ran; auto.
Qed.

Lemma keeps_run_workers fuel : keeps I (run_workers fuel).
Proof.
  induction fuel as [|f IH]; cbn [run_workers]; [apply keeps_ret|].
  intros s Hs. wp_run; [exact Hs|].
  eapply wp_conseq;
    [apply (sweep_keeps (a :: l));
     [rewrite <- Heql; now apply Hpending_ok | now apply Hpending_set]
    | | auto].
  intros w s1 [Hs1 Hw]. cbv beta. wp_run.
  - apply IH. now apply Hpending_set.
  - now apply Hpending_set.
Qed.

Lemma keeps_schedule : keeps I schedule.
Proof. unfold schedule. keeps_run. apply keeps_run_workers. Qed.

Lemma keeps_async_synchronize_full : keeps I async_synchronize_full.
Proof. unfold async_synchronize_full. keeps_run. apply keeps_schedule. Qed.

Hypothesis Hrearm :
  forall x s, ok x -> I s ->
    I (with_devs (upd_dev x (with_power (set_power_completion false))) s).
Hypothesis Hsched :
  forall s d, I s -> I (with_trace (EvAsyncSchedule d :: trace s) s).

Lemma keeps_async_schedule t : ok (task_dev t) -> keeps I (async_schedule t).
Proof.
  intros Ht. unfold async_schedule. keeps_run.
  apply Hpending_set; [|assumption].
  apply Forall_app. split; [now apply Hpending_ok | now constructor].
Qed.

Lemma keeps_INIT_COMPLETION d : ok d -> keeps I (INIT_COMPLETION d).
Proof. intros Hd. unfold INIT_COMPLETION. keeps_run. Qed.

Lemma keeps_device_suspend d : ok d -> keeps I (device_suspend d).
Proof.
  intros Hd. unfold device_suspend. keeps_run.
  - now apply keeps_INIT_COMPLETION.
  - now apply keeps_async_schedule.
  - apply keeps___device_suspend; auto using keeps_schedule.
Qed.

Lemma keeps_controller_resume d msg :
  ok d -> keeps I (device_resume schedule d msg false).
Proof. intros Hd. apply keeps_device_resume; auto using keeps_schedule. Qed.

End StableWorkers.

(** ** The registry lock *)

Section TripleRules.
Context {PF : Platform}.

Lemma triple_bind {A B : Type} (P R Q E : state -> Prop) (m : M A) (f : A -> M B) :
  triple P m R E -> (forall a, triple R (f a) Q E) -> triple P (bind m f) Q E.
Proof.
  intros Hm Hf s Hs. apply wp_bind.
  eapply wp_conseq; [apply Hm; exact Hs | | auto].
  intros a s' Hs'. now apply Hf.
Qed.

Lemma triple_ret {A : Type} (P E : state -> Prop) (a : A) : triple P (ret a) P E.
Proof. intros s Hs. exact Hs. Qed.

Lemma triple_get {A : Type} (P E : state -> Prop) (f : state -> A) :
  triple P (get f) P E.
Proof. intros s Hs. exact Hs. Qed.

Lemma triple_modify (P Q E : state -> Prop) (g : state -> state) :
  (forall s, P s -> Q (g s)) -> triple P (modify g) Q E.
Proof. intros Hg s Hs. now apply Hg. Qed.

Lemma triple_modify_same (P E : state -> Prop) (g : state -> state) :
  (forall s, P s -> P (g s)) -> triple P (modify g) P E.
Proof. apply triple_modify. Qed.

Lemma triple_out_of_fuel {A : Type} (P Q E : state -> Prop) :
  (forall s, P s -> E s) -> triple P (@out_of_fuel _ A) Q E.
Proof. intros H s Hs. now apply H. Qed.

Lemma triple_block {A : Type} (P Q E : state -> Prop) :
  (forall s, P s -> E s) -> triple P (@block _ A) Q E.
Proof. intros H s Hs. now apply H. Qed.

Lemma keeps_triple {A : Type} (I E : state -> Prop) (m : M A) :
  (forall s, I s -> E s) -> keeps I m -> triple I m I E.
Proof.
  intros HE Hm s Hs. eapply wp_conseq; [apply Hm; exact Hs | auto | auto].
Qed.

Lemma triple_final {A : Type} (P Q : state -> Prop) (m : M A) (s : state) :
  triple P m Q Q -> P s -> Q (final (m s)).
Proof. intros Hm Hs. apply wp_final. now apply Hm. Qed.

Lemma triple_weaken {A : Type} (P Q Q' E : state -> Prop) (m : M A) :
  (forall s, Q s -> Q' s) -> triple P m Q E -> triple P m Q' E.
Proof.
  intros HQ Hm s Hs. eapply wp_conseq; [apply Hm; exact Hs | auto | auto].
Qed.

End TripleRules.

Section LockFacts.
Context {PF : Platform}.

Lemma unlocked_respects s : unlocked s -> respects s.
Proof. now intros [H _]. Qed.

Lemma locked_respects s : locked s -> respects s.
Proof. now intros [H _]. Qed.

Lemma unlocked_plain s e :
  plain e = true -> unlocked s -> unlocked (with_trace (e :: trace s) s).
Proof.
  intros He [H1 H2]. unfold unlocked. cbn [trace with_trace lock_respected].
  rewrite H1, H2. destruct e; try discriminate; cbn; auto.
Qed.

Lemma unlocked_call s d t o :
  unlocked s -> unlocked (with_trace (EvCall d t o :: trace s) s).
Proof. intros [H1 H2]. unfold unlocked. cbn. now rewrite H1, H2. Qed.

Lemma unlocked_return s d t o r :
  unlocked s -> unlocked (with_trace (EvReturn d t o r :: trace s) s).
Proof. intros [H1 H2]. unfold unlocked. cbn. now rewrite H1, H2. Qed.

Lemma unlocked_sched s d :
  unlocked s -> unlocked (with_trace (EvAsyncSchedule d :: trace s) s).
Proof. intros [H1 H2]. unfold unlocked. cbn. now rewrite H1, H2. Qed.

Lemma locked_plain s e :
  plain e = true -> is_wait e = false -> locked s ->
  locked (with_trace (e :: trace s) s).
Proof.
  intros He Hw [H1 H2]. unfold locked. cbn [trace with_trace lock_respected].
  rewrite H1, H2. destruct e; try discriminate; cbn; auto.
Qed.

Lemma locked_sched s d :
  locked s -> locked (with_trace (EvAsyncSchedule d :: trace s) s).
Proof. intros [H1 H2]. unfold locked. cbn. now rewrite H1, H2. Qed.

Lemma lock_taken s : unlocked s -> locked (with_trace (EvLock :: trace s) s).
Proof. intros [H1 H2]. unfold locked. cbn. now rewrite H1. Qed.

Lemma lock_dropped s : locked s -> unlocked (with_trace (EvUnlock :: trace s) s).
Proof. intros [H1 H2]. unfold unlocked. cbn. now rewrite H1. Qed.

(** The bodies and the workers never touch the mutex and only call or
    wait when it is free. *)
Lemma unlocked_device_suspend d : keeps unlocked (device_suspend d).
Proof.
  apply (keeps_device_suspend unlocked (fun _ => True));
    auto using unlocked_plain, unlocked_call, unlocked_return, unlocked_sched.
  intros s _. apply Forall_forall. auto.
Qed.

Lemma unlocked_device_resume d msg : keeps unlocked (device_resume schedule d msg false).
Proof.
  apply (keeps_controller_resume unlocked (fun _ => True));
    auto using unlocked_plain, unlocked_call, unlocked_return.
  intros s _. apply Forall_forall. auto.
Qed.

Lemma unlocked_synchronize : keeps unlocked async_synchronize_full.
Proof.
  apply (keeps_async_synchronize_full unlocked (fun _ => True));
    auto using unlocked_plain, unlocked_call, unlocked_return.
  intros s _. apply Forall_forall. auto.
Qed.

Lemma unlocked_prepare_one d msg : keeps unlocked (dpm_prepare_one d msg).
Proof.
  apply keeps_dpm_prepare_one;
    auto using unlocked_plain, unlocked_call, unlocked_return.
Qed.

Lemma unlocked_device_complete d msg : keeps unlocked (device_complete d msg).
Proof.
  apply keeps_device_complete;
    auto using unlocked_plain, unlocked_call, unlocked_return.
Qed.

End LockFacts.

Create HintDb lockdb.

Ltac triple_step :=
  lazymatch goal with
  | |- triple _ (bind _ _) _ _ => eapply triple_bind; [ | intro ]
  | |- triple _ (ret _) _ _ => apply triple_ret
  | |- triple _ (get _) _ _ => apply triple_get
  | |- triple _ (modify _) _ _ =>
      apply triple_modify_same; let H := fresh in intros ? H; exact H
  | |- triple _ (if ?b then _ else _) _ _ => destruct b
  | |- triple _ (match ?x with _ => _ end) _ _ => destruct x
  | |- triple _ _ _ _ => solve [eauto with lockdb]
  end.

Ltac triple_run := repeat triple_step.

Section LockSteps.
Context {PF : Platform}.

Lemma lk_lock : triple unlocked mutex_lock locked respects.
Proof. intros s Hs. now apply lock_taken. Qed.

Lemma lk_unlock : triple locked mutex_unlock unlocked respects.
Proof. intros s Hs. now apply lock_dropped. Qed.

Lemma lk_status d v : triple locked (set_status d v) locked respects.
Proof. intros s Hs. exact Hs. Qed.

Lemma lk_pm_dev_err d e : triple locked (pm_dev_err d e) locked respects.
Proof. intros s Hs. now apply locked_plain. Qed.

Lemma lk_log_err d e : triple locked (log (EvPmErr d e)) locked respects.
Proof. intros s Hs. now apply locked_plain. Qed.

Lemma lk_list_move d done : triple locked (list_move d done) locked respects.
Proof. unfold list_move. triple_run. Qed.

Lemma lk_list_move_tail d done :
  triple locked (list_move_tail d done) locked respects.
Proof. unfold list_move_tail. triple_run. Qed.

Lemma lk_INIT_COMPLETION d : triple locked (INIT_COMPLETION d) locked respects.
Proof.
  unfold INIT_COMPLETION. triple_run.
  intros s Hs. now apply locked_plain.
Qed.

Lemma lk_is_async d : triple locked (is_async d) locked respects.
Proof. unfold is_async. triple_run. Qed.

Lemma lk_async_schedule t : triple locked (async_schedule t) locked respects.
Proof.
  unfold async_schedule. triple_run.
  intros s Hs. now apply locked_sched.
Qed.

Lemma lk_device_suspend d : triple unlocked (device_suspend d) unlocked respects.
Proof.
  apply keeps_triple; [apply unlocked_respects | apply unlocked_device_suspend].
Qed.

Lemma lk_device_resume d msg :
  triple unlocked (device_resume schedule d msg false) unlocked respects.
Proof.
  apply keeps_triple; [apply unlocked_respects | apply unlocked_device_resume].
Qed.

Lemma lk_synchronize : triple unlocked async_synchronize_full unlocked respects.
Proof.
  apply keeps_triple; [apply unlocked_respects | apply unlocked_synchronize].
Qed.

Lemma lk_prepare_one d msg :
  triple unlocked (dpm_prepare_one d msg) unlocked respects.
Proof.
  apply keeps_triple; [apply unlocked_respects | apply unlocked_prepare_one].
Qed.

Lemma lk_device_complete d msg :
  triple unlocked (device_complete d msg) unlocked respects.
Proof.
  apply keeps_triple; [apply unlocked_respects | apply unlocked_device_complete].
Qed.

Lemma lk_put_sync d : triple unlocked (pm_runtime_put_sync d) unlocked respects.
Proof. intros s Hs. now apply unlocked_plain. Qed.

Lemma lk_fuel {A : Type} Q : triple locked (@out_of_fuel _ A) Q respects.
Proof. apply triple_out_of_fuel. apply locked_respects. Qed.

End LockSteps.

#[export] Hint Resolve lk_lock lk_unlock lk_status lk_pm_dev_err lk_log_err
  lk_list_move lk_list_move_tail lk_INIT_COMPLETION lk_is_async
  lk_async_schedule lk_device_suspend lk_device_resume lk_synchronize
  lk_prepare_one lk_device_complete lk_put_sync lk_fuel : lockdb.

Section LockDrivers.
Context {PF : Platform}.










End LockDrivers.

Create HintDb noirqdb.



Section NoirqLock.
Context {PF : Platform}.

Lemma under_lock_plain s e :
  plain e = true -> under_lock s -> under_lock (with_trace (e :: trace s) s).
Proof.
  intros He [H1 H2]. unfold under_lock. cbn [trace with_trace calls_locked].
  rewrite H1, H2. destruct e; try discriminate; cbn; auto.
Qed.

Lemma under_lock_call s d t o :
  under_lock s -> under_lock (with_trace (EvCall d t o :: trace s) s).
Proof. intros [H1 H2]. unfold under_lock. cbn. now rewrite H1, H2. Qed.

Lemma under_lock_return s d t o r :
  under_lock s -> under_lock (with_trace (EvReturn d t o r :: trace s) s).
Proof. intros [H1 H2]. unfold under_lock. cbn. now rewrite H1, H2. Qed.

Lemma nq_lock : triple lock_free mutex_lock under_lock all_calls_locked.
Proof. intros s [H1 H2]. unfold under_lock. cbn. now rewrite H1. Qed.

Lemma nq_unlock : triple under_lock mutex_unlock lock_free all_calls_locked.
Proof. intros s [H1 H2]. unfold lock_free. cbn. now rewrite H1. Qed.

Lemma nq_irqs_off : triple lock_free (log EvSuspendIrqs) lock_free all_calls_locked.
Proof. intros s [H1 H2]. unfold lock_free. cbn. now rewrite H1, H2. Qed.

Lemma nq_irqs_on : triple lock_free (log EvResumeIrqs) lock_free all_calls_locked.
Proof. intros s [H1 H2]. unfold lock_free. cbn. now rewrite H1, H2. Qed.

Lemma nq_status d v : triple under_lock (set_status d v) under_lock all_calls_locked.
Proof. intros s Hs. exact Hs. Qed.

Lemma nq_pm_dev_err d e :
  triple under_lock (pm_dev_err d e) under_lock all_calls_locked.
Proof. intros s Hs. now apply under_lock_plain. Qed.

Lemma nq_suspend_noirq d msg :
  triple under_lock (device_suspend_noirq d msg) under_lock all_calls_locked.
Proof.
  apply keeps_triple; [now intros s [H _]|].
  apply keeps_device_suspend_noirq;
    auto using under_lock_plain, under_lock_call, under_lock_return.
Qed.

Lemma nq_resume_noirq d msg :
  triple under_lock (device_resume_noirq d msg) under_lock all_calls_locked.
Proof.
  apply keeps_triple; [now intros s [H _]|].
  apply keeps_device_resume_noirq;
    auto using under_lock_plain, under_lock_call, under_lock_return.
Qed.

End NoirqLock.

#[export] Hint Resolve nq_lock nq_unlock nq_irqs_off nq_irqs_on nq_status
  nq_pm_dev_err nq_suspend_noirq nq_resume_noirq : noirqdb.

Section NoirqDrivers.
Context {PF : Platform}.







End NoirqDrivers.

(** ** The prepare phase *)

Section Prepare.
Context {PF : Platform}.

Lemma prepare_one_keeps_list (dev : dev_id) (msg : pm_message_t) (l : list dev_id) :
  keeps (fun s => dpm_list s = l) (dpm_prepare_one dev msg).
Proof. apply keeps_dpm_prepare_one; auto. Qed.

Lemma prepare_error_skips_suspend (fuel : nat) (msg : pm_message_t)
    (s s' : state) (e : Z) :
  dpm_prepare fuel msg s = Ret e s' -> e <> 0 ->
  dpm_suspend_start fuel msg s = Ret e s'.
Proof.
  intros H He. unfold dpm_suspend_start. rewrite (bind_ret_eq _ _ _ _ _ H).
  destruct (Z.eqb_spec e 0); [contradiction | reflexivity].
Qed.

(** C4.  When the prepare work of the device at the head
    of [dpm_list] fails, the device goes back to ON and is still at the
    head of [dpm_list].  On -EAGAIN the error is dropped and the loop
    goes round again from that state, so the same device is prepared
    again rather than skipped; on any other error the loop stops with
    that error.  A non-zero result of [dpm_prepare] is what
    [dpm_suspend_start] returns, [dpm_suspend] not being run. *)
Theorem prepare_retries_on_eagain_aborts_otherwise (fuel : nat)
    (msg : pm_message_t) (done : list dev_id) (s s1 : state)
    (dev : dev_id) (rest : list dev_id) (e : Z)
    (Hhead : dpm_list s = dev :: rest)
    (Hone : dpm_prepare_one dev msg (prepare_entered dev s) = Ret e s1)
    (He : e <> 0) :
  list_next (dpm_list (prepare_failed dev s1)) = Some dev
  /\ dev_status (prepare_failed dev s1) dev = DPM_ON
  /\ dpm_prepare_loop (S fuel) msg done s =
     (if e =? - EAGAIN
      then dpm_prepare_loop fuel msg done (prepare_failed dev s1)
      else Ret (e, done)
             (with_trace (EvPmErr dev e :: trace (prepare_failed dev s1))
                (prepare_failed dev s1)))
  /\ (forall f0 s0 s0' e0,
        dpm_prepare f0 msg s0 = Ret e0 s0' -> e0 <> 0 ->
        dpm_suspend_start f0 msg s0 = Ret e0 s0').
Proof.
  assert (Hl : dpm_list s1 = dev :: rest).
  { refine (keeps_ret_eq _ _ _ _ _ (prepare_one_keeps_list dev msg (dev :: rest)) _ Hone).
    exact Hhead. }
  repeat split.
  - cbn. now rewrite Hl.
  - unfold dev_status, prepare_failed. cbn. now rewrite upd_dev_same.
  - cbn [dpm_prepare_loop]. unfold bind at 1. unfold get at 1. rewrite Hhead.
    cbn [list_next hd_error].
    unfold set_status, mutex_unlock, mutex_lock, log.
    unfold bind at 1. unfold modify at 1.
    unfold bind at 1. unfold modify at 1.
    fold (prepare_entered dev s).
    unfold bind at 1. rewrite Hone.
    unfold bind at 1. unfold modify at 1.
    destruct (Z.eqb_spec e 0) as [|_]; [contradiction|]. cbn [negb].
    unfold bind at 1. unfold modify at 1. fold (prepare_failed dev s1).
    destruct (e =? - EAGAIN); reflexivity.
  - intros. now apply prepare_error_skips_suspend.
Qed.

(** C5.  When [pm_runtime_barrier] reports a pending
    request for the device at the head of [dpm_list] and the device may
    wake the system up, the error is -EBUSY, which is not -EAGAIN: no
    prepare callback runs, the device goes back to ON, and the loop
    stops there with -EBUSY, leaving every other device as it was.
    [dpm_suspend_start] then returns -EBUSY without suspending. *)
Theorem wakeup_request_aborts_prepare (fuel : nat) (msg : pm_message_t)
    (done : list dev_id) (s : state) (dev : dev_id) (rest : list dev_id)
    (Hhead : dpm_list s = dev :: rest)
    (Hbarrier : fst (runtime_barrier (devs s dev) (env s)) <> 0)
    (Hwake : may_wakeup (power (devs s dev)) = true) :
  (exists s3,
      dpm_prepare_loop (S fuel) msg done s = Ret (- EBUSY, done) s3
      /\ dev_status s3 dev = DPM_ON
      /\ (forall y, y <> dev -> devs s3 y = devs s y)
      /\ dpm_list s3 = dpm_list s
      /\ trace s3 = EvPmErr dev (- EBUSY) :: EvLock :: EvRuntimePut dev
                    :: EvRuntimeGet dev :: EvUnlock :: trace s)
  /\ (forall f0 s0 s0',
        dpm_prepare f0 msg s0 = Ret (- EBUSY) s0' ->
        dpm_suspend_start f0 msg s0 = Ret (- EBUSY) s0').
Proof.
  split.
  - eexists. split.
    + cbn [dpm_prepare_loop]. unfold bind at 1. unfold get at 1. rewrite Hhead.
      cbn [list_next hd_error].
      unfold dpm_prepare_one, pm_runtime_barrier, pm_runtime_get_noresume,
        pm_runtime_put_sync, set_status, mutex_unlock, mutex_lock, log,
        bind, modify, get, ret.
      cbn. rewrite upd_dev_same. cbn. rewrite Hwake.
      destruct (Z.eqb_spec (fst (runtime_barrier (devs s dev) (env s))) 0);
        [contradiction|].
      cbn. reflexivity.
    + cbn. repeat split.
      * unfold dev_status. cbn. now rewrite upd_dev_same.
      * intros y Hy. now rewrite !upd_dev_other.
  - intros. apply prepare_error_skips_suspend; [assumption | discriminate].
Qed.

End Prepare.

(** ** A device that was prepared but never suspended *)

Section Untouched.
Context {PF : Platform}.
Variables (d : dev_id) (base : list event_t).







Variable v : dpm_state.

Let U := untouched d v base.









Lemma U_same (g : state -> state) s :
  devs (g s) = devs s -> async_pending (g s) = async_pending s ->
  trace (g s) = trace s -> U s -> U (g s).
Proof.
  intros Hd Hp Ht (H1 & H2 & H3). unfold U, untouched, dev_status, quiet_since.
  rewrite Hd, Hp, Ht. auto.
Qed.










Lemma U_list_move_tail x done : keeps U (list_move_tail x done).
Proof. unfold list_move_tail. keeps_run; try now apply U_same. Qed.

Lemma U_list_move x done : keeps U (list_move x done).
Proof. unfold list_move. keeps_run; try now apply U_same. Qed.

End Untouched.

Section ListFacts.
Context {PF : Platform}.

Lemma keeps_and {A : Type} (I J : state -> Prop) (m : M A) :
  keeps I m -> keeps J m -> keeps (fun s => I s /\ J s) m.
Proof.
  intros HI HJ s [Hi Hj]. specialize (HI s Hi). specialize (HJ s Hj).
  unfold wp in *. destruct (m s); auto.
Qed.

Lemma in_list_del d x l : In d (list_del x l) <-> In d l /\ d <> x.
Proof.
  unfold list_del. rewrite filter_In. rewrite negb_true_iff, Nat.eqb_neq.
  tauto.
Qed.


Lemma on_list_true d l : In d l -> on_list d l = true.
Proof.
  intros H. unfold on_list. apply existsb_exists. exists d.
  split; [assumption | apply Nat.eqb_refl].
Qed.


Lemma list_next_in d l : list_next l = Some d -> In d l.
Proof.
  unfold list_next. destruct l; [discriminate|]. intros H. injection H as ->.
  now left.
Qed.




Lemma list_kept_by_complete l x msg :
  keeps (fun s => dpm_list s = l) (device_complete x msg).
Proof. apply keeps_device_complete; auto. Qed.

End ListFacts.

Section ResumeOfPrepared.
Context {PF : Platform}.
Variables (d : dev_id) (base : list event_t) (msg : pm_message_t).





End ResumeOfPrepared.

(** ** Invariants no part of the PM core disturbs *)

Section Everywhere.
Context {PF : Platform}.
Variable I : state -> Prop.

Hypothesis Hev : forall s e, I s -> I (with_trace (e :: trace s) s).
Hypothesis Henv : forall s w, I s -> I (with_env w s).
Hypothesis Hstatus :
  forall s x v, v <> DPM_INVALID -> I s ->
    I (with_devs (upd_dev x (with_power (set_power_status v))) s).
Hypothesis Hcompletion :
  forall s x b, I s ->
    I (with_devs (upd_dev x (with_power (set_power_completion b))) s).
Hypothesis Htimers : forall s l, I s -> I (with_timers l s).
Hypothesis Hcurrent : forall s n, I s -> I (with_current n s).
Hypothesis Haerr : forall s e, I s -> I (with_async_error e s).
Hypothesis Hpending : forall s l, I s -> I (with_async_pending l s).
Hypothesis Hlist : forall s l, I s -> I (with_dpm_list l s).
Hypothesis Hmsg : forall s m, I s -> I (with_pm_transition m s).
Hypothesis Hstarted : forall s b, I s -> I (with_transition_started b s).


Lemma ev_device_suspend x : keeps I (device_suspend x).
Proof.
  apply (keeps_device_suspend I (fun _ => True)); auto.
  intros. apply Forall_forall. auto.
Qed.

Lemma ev_synchronize : keeps I async_synchronize_full.
Proof.
  apply (keeps_async_synchronize_full I (fun _ => True)); auto.
  intros. apply Forall_forall. auto.
Qed.

Lemma ev_list_move x done : keeps I (list_move x done).
Proof. unfold list_move. keeps_run. Qed.

Lemma ev_list_move_tail x done : keeps I (list_move_tail x done).
Proof. unfold list_move_tail. keeps_run. Qed.




Lemma ev_suspend_loop fuel msg done : keeps I (dpm_suspend_loop fuel msg done).
Proof.
  revert done. induction fuel as [|f IH]; intros done; cbn [dpm_suspend_loop];
    unfold mutex_lock, mutex_unlock, pm_dev_err;
    keeps_run; auto using ev_device_suspend, ev_list_move.
Qed.

Lemma ev_dpm_suspend msg : keeps I (dpm_suspend msg).
Proof.
  unfold dpm_suspend, mutex_lock, mutex_unlock. keeps_run;
    auto using ev_suspend_loop, ev_synchronize.
Qed.

Lemma ev_prepare_one x msg : keeps I (dpm_prepare_one x msg).
Proof. apply keeps_dpm_prepare_one; auto. Qed.

Lemma ev_prepare_loop fuel msg done : keeps I (dpm_prepare_loop fuel msg done).
Proof.
  revert done. induction fuel as [|f IH]; intros done; cbn [dpm_prepare_loop];
    unfold mutex_lock, mutex_unlock, set_status;
    keeps_run; auto using ev_prepare_one, ev_list_move_tail;
    try (apply Hstatus; [discriminate | assumption]).
Qed.

Lemma ev_dpm_prepare fuel msg : keeps I (dpm_prepare fuel msg).
Proof.
  unfold dpm_prepare, mutex_lock, mutex_unlock. keeps_run;
    auto using ev_prepare_loop.
Qed.

Lemma ev_device_complete x msg : keeps I (device_complete x msg).
Proof. apply keeps_device_complete; auto. Qed.

Lemma ev_complete_loop fuel msg done : keeps I (dpm_complete_loop fuel msg done).
Proof.
  revert done. induction fuel as [|f IH]; intros done; cbn [dpm_complete_loop];
    unfold mutex_lock, mutex_unlock, set_status, pm_runtime_put_sync;
    keeps_run; auto using ev_device_complete, ev_list_move;
    try (apply Hstatus; [discriminate | assumption]).
Qed.

Lemma ev_dpm_complete msg : keeps I (dpm_complete msg).
Proof.
  unfold dpm_complete, mutex_lock, mutex_unlock. keeps_run;
    auto using ev_complete_loop.
Qed.

End Everywhere.

Section TiersStay.
Context {PF : Platform}.

Lemma tiers_upd d dv x f s :
  same_tiers d dv s -> same_tiers d dv (with_devs (upd_dev x (with_power f)) s).
Proof.
  unfold same_tiers, upd_dev. cbn. destruct (Nat.eqb d x); cbn; auto.
Qed.


Lemma tiers_kept_by_complete x d dv msg :
  keeps (same_tiers d dv) (device_complete x msg).
Proof. apply ev_device_complete; auto using tiers_upd. Qed.

End TiersStay.

Section ResumePhaseOfPrepared.
Context {PF : Platform}.
Variables (d : dev_id) (msg : pm_message_t).



End ResumePhaseOfPrepared.

Section CompletePhaseOfPrepared.
Context {PF : Platform}.
Variables (d : dev_id) (base : list event_t) (dv : device) (msg : pm_message_t).


Lemma extends_cons e s : extends base s -> extends base (with_trace (e :: trace s) s).
Proof. intros [new H]. exists (e :: new). cbn. now rewrite H. Qed.

Lemma extends_same (g : state -> state) s :
  trace (g s) = trace s -> extends base s -> extends base (g s).
Proof. intros Ht [new H]. exists new. now rewrite Ht. Qed.








(** One turn of the complete loop on another device than [d]. *)
Lemma complete_turn_other (I : state -> Prop) (dev : dev_id) (st : dpm_state) :
  (forall s e, I s -> I (with_trace (e :: trace s) s)) ->
  (forall s w, I s ->
     I (with_devs (upd_dev dev (with_power (set_power_status w))) s)) ->
  (forall s w, I s -> I (with_env w s)) ->
  (forall s l, I s -> I (with_timers l s)) ->
  keeps I
    (if dpm_gt st DPM_ON
     then
       set_status dev DPM_ON ;;
       mutex_unlock ;;
       device_complete dev msg ;;
       pm_runtime_put_sync dev ;;
       mutex_lock
     else ret tt).
Proof.
  intros Hev Hpow Henv Htm.
  unfold set_status, mutex_lock, mutex_unlock, pm_runtime_put_sync.
  keeps_run. apply keeps_device_complete; auto.
Qed.

Lemma invoke_void_effect (t : tier) (o : op) (cb : void_callback) (s : state) :
  wp (invoke_void d t o cb)
     (fun _ s' => trace s' = EvReturn d t o 0 :: EvCall d t o :: trace s
                  /\ devs s' = devs s /\ dpm_list s' = dpm_list s)
     (fun _ _ => True) s.
Proof.
  unfold invoke_void, run_timers, dpm_drv_timeout. wp_run; cbn; auto.
Qed.


End CompletePhaseOfPrepared.

(** The complete loop, for any pair of conditions on one device [d]:
    [Pin] holds until the turn of [d], [Pout] from then on. *)
Section CompleteLoop.
Context {PF : Platform}.
Variables (d : dev_id) (msg : pm_message_t).
Variables Pin Pout : state -> Prop.

Hypothesis Pin_event : forall s e, Pin s -> Pin (with_trace (e :: trace s) s).
Hypothesis Pin_status :
  forall s x w, x <> d -> Pin s ->
    Pin (with_devs (upd_dev x (with_power (set_power_status w))) s).
Hypothesis Pin_same :
  forall (g : state -> state) s,
    devs (g s) = devs s -> trace (g s) = trace s -> Pin s -> Pin (g s).
Hypothesis Pout_event : forall s e, Pout s -> Pout (with_trace (e :: trace s) s).
Hypothesis Pout_status :
  forall s x w, x <> d -> Pout s ->
    Pout (with_devs (upd_dev x (with_power (set_power_status w))) s).
Hypothesis Pout_same :
  forall (g : state -> state) s,
    devs (g s) = devs s -> trace (g s) = trace s -> Pout s -> Pout (g s).
Hypothesis Hturn :
  forall s,
    Pin s ->
    wp (if dpm_gt (dev_status s d) DPM_ON
        then
          set_status d DPM_ON ;;
          mutex_unlock ;;
          device_complete d msg ;;
          pm_runtime_put_sync d ;;
          mutex_lock
        else ret tt)
       (fun _ s' => Pout s' /\ dpm_list s' = dpm_list s) (fun _ _ => True) s.

Lemma list_prev_none l : list_prev l = None -> l = [].
Proof.
  unfold list_prev. intros H. destruct (rev l) eqn:Hr; [|discriminate].
  apply (f_equal (@rev _)) in Hr. now rewrite rev_involutive in Hr.
Qed.

Lemma complete_turn_keeps (I : state -> Prop) (dev : dev_id) (st : dpm_state)
    (l : list dev_id) :
  (forall s e, I s -> I (with_trace (e :: trace s) s)) ->
  (forall s w, I s ->
     I (with_devs (upd_dev dev (with_power (set_power_status w))) s)) ->
  (forall (g : state -> state) s,
     devs (g s) = devs s -> trace (g s) = trace s -> I s -> I (g s)) ->
  keeps (fun s => I s /\ dpm_list s = l)
    (if dpm_gt st DPM_ON
     then
       set_status dev DPM_ON ;;
       mutex_unlock ;;
       device_complete dev msg ;;
       pm_runtime_put_sync dev ;;
       mutex_lock
     else ret tt).
Proof.
  intros H1 H2 H3. apply keeps_and.
  - apply complete_turn_other; auto.
  - apply complete_turn_other; auto.
Qed.




End CompleteLoop.

Section CompleteOfPrepared.
Context {PF : Platform}.
Variables (d : dev_id) (base : list event_t) (dv : device) (msg : pm_message_t).
Variable v : dpm_state.
Hypothesis Hv : dpm_gt v DPM_ON = true.




End CompleteOfPrepared.

Section PreparedDevice.
Context {PF : Platform}.

Lemma returned_final {A : Type} (o : outcome A) (a : A) :
  returned o = Some a -> o = Ret a (final o).
Proof. destruct o; cbn; congruence. Qed.


End PreparedDevice.

(** ** Sequential dispatch *)

Section Sequential.
Context {PF : Platform}.








End Sequential.

Section AllAt.
Context {PF : Platform}.

Lemma all_at_same l v (g : state -> state) s :
  devs (g s) = devs s -> all_at l v s -> all_at l v (g s).
Proof. intros Hd H y Hy. unfold dev_status. rewrite Hd. now apply H. Qed.

Lemma all_at_status l v x w s :
  ~ In x l -> all_at l v s ->
  all_at l v (with_devs (upd_dev x (with_power (set_power_status w))) s).
Proof.
  intros Hx H y Hy. unfold dev_status. cbn. rewrite upd_dev_other.
  - now apply H.
  - intros ->. contradiction.
Qed.


Lemma all_at_snoc l v x s :
  all_at l v s -> dev_status s x = v -> all_at (l ++ [x]) v s.
Proof.
  intros H Hx y Hy. apply in_app_or in Hy. destruct Hy as [Hy|[<-|[]]]; auto.
Qed.


Lemma list_del_absent x l : ~ In x l -> list_del x l = l.
Proof.
  intros H. unfold list_del. induction l as [|a r IH]; [reflexivity|].
  cbn. destruct (Nat.eqb_spec a x) as [->|Hne]; cbn.
  - exfalso. apply H. now left.
  - f_equal. apply IH. intros Hin. apply H. now right.
Qed.

Lemma list_del_head x l : ~ In x l -> list_del x (x :: l) = l.
Proof.
  intros H. unfold list_del. cbn. rewrite Nat.eqb_refl. cbn.
  now apply list_del_absent.
Qed.

Lemma list_del_last x l : ~ In x l -> list_del x (l ++ [x]) = l.
Proof.
  intros H. unfold list_del. rewrite filter_app. cbn. rewrite Nat.eqb_refl.
  cbn. rewrite app_nil_r. now apply list_del_absent.
Qed.

Lemma list_prev_snoc l x : list_prev l = Some x -> exists pre, l = pre ++ [x].
Proof.
  unfold list_prev. intros H. destruct (rev l) as [|a r] eqn:Hr; [discriminate|].
  injection H as ->. exists (rev r).
  apply (f_equal (@rev _)) in Hr. rewrite rev_involutive in Hr. exact Hr.
Qed.

End AllAt.

(** ** What a successful prepare phase leaves *)

Section PrepareAll.
Context {PF : Platform}.
Variable msg : pm_message_t.

Lemma prepare_one_keeps (done l : list dev_id) (dev : dev_id) :
  keeps (fun s => all_at done DPM_SUSPENDING s /\ dpm_list s = l)
        (dpm_prepare_one dev msg).
Proof.
  apply keeps_dpm_prepare_one;
    intros; match goal with H : _ /\ _ |- _ => destruct H end;
    (split; [now apply all_at_same | assumption]).
Qed.

Lemma prepare_loop_all_suspending (fuel : nat) :
  forall done s,
    NoDup (done ++ dpm_list s) -> all_at done DPM_SUSPENDING s ->
    wp (dpm_prepare_loop fuel msg done)
       (fun r s' =>
          fst r = 0 ->
          dpm_list s' = [] /\ NoDup (snd r) /\ all_at (snd r) DPM_SUSPENDING s')
       (fun _ _ => True) s.
Proof.
  induction fuel as [|f IH]; intros done s Hnd Hall; cbn [dpm_prepare_loop];
    apply wp_bind, wp_get;
    destruct (dpm_list s) as [|dev rest] eqn:Hl; cbn [list_next hd_error].
  - apply wp_ret. intros _. rewrite app_nil_r in Hnd. auto.
  - apply wp_out_of_fuel. exact I.
  - apply wp_ret. intros _. rewrite app_nil_r in Hnd. auto.
  - assert (Hnew : ~ In dev done).
    { intros Hin. apply NoDup_remove_2 in Hnd. apply Hnd.
      apply in_or_app. now left. }
    assert (Hrest : ~ In dev rest).
    { apply NoDup_remove_2 in Hnd. intros Hin. apply Hnd.
      apply in_or_app. now right. }
    wp_pure.
    eapply wp_conseq;
      [apply (prepare_one_keeps done (dev :: rest) dev); split;
       [apply all_at_same; [reflexivity|]; now apply all_at_status
       | exact Hl]
      | | auto].
    intros e s1 [Hall1 Hl1]. cbv beta. wp_pure.
    destruct (Z.eqb_spec e 0) as [Hz|Hnz]; cbn [negb].
    + (* prepared *)
      wp_pure. unfold list_move_tail. wp_pure. st_simpl. rewrite Hl1.
      rewrite on_list_true by now left. wp_pure. apply IH.
      * st_simpl. rewrite list_del_head by assumption.
        rewrite <- app_assoc. exact Hnd.
      * apply all_at_same; [reflexivity|]. apply all_at_snoc.
        -- now apply all_at_status.
        -- unfold dev_status. cbn. now rewrite upd_dev_same.
    + wp_pure. destruct (e =? - EAGAIN).
      * apply IH.
        -- st_simpl. rewrite Hl1. exact Hnd.
        -- now apply all_at_status.
      * wp_pure. cbn [fst]. contradiction.
Qed.

Lemma dpm_prepare_all_suspending (fuel : nat) (s : state) :
  NoDup (dpm_list s) ->
  wp (dpm_prepare fuel msg)
     (fun e s' =>
        e = 0 -> NoDup (dpm_list s') /\ all_at (dpm_list s') DPM_SUSPENDING s')
     (fun _ _ => True) s.
Proof.
  intros Hnd. unfold dpm_prepare. wp_pure.
  eapply wp_conseq; [apply prepare_loop_all_suspending | | auto].
  - exact Hnd.
  - intros y [].
  - intros [e done] s1 H. cbv beta. wp_pure. cbn [fst snd] in *.
    intros He. destruct (H He) as (Hl & Hn & Ha).
    st_simpl. rewrite Hl, app_nil_r. split; [exact Hn|].
    apply all_at_same; [reflexivity|]. now apply (all_at_same _ _ (with_dpm_list _)).
Qed.

End PrepareAll.

(** ** The sequential suspend phase *)

Section SuspendSequential.
Context {PF : Platform}.
Variables (msg : pm_message_t) (base : list event_t).




Lemma quiet_all_incl l l' s :
  incl l' l -> quiet_all l base s -> quiet_all l' base s.
Proof. intros Hi H y Hy. apply H. now apply Hi. Qed.





Lemma callback_of_other y x e :
  callback_of x e = true -> y <> x -> callback_of y e = false.
Proof.
  destruct e; cbn; try discriminate; intros H Hne;
    apply Nat.eqb_eq in H; subst; now apply Nat.eqb_neq.
Qed.



End SuspendSequential.

Section SuspendPhaseSequential.
Context {PF : Platform}.
Variable msg : pm_message_t.


End SuspendPhaseSequential.

(** ** What a failed suspend leaves behind, and who cleans it up *)

Section AfterFailedSuspend.
Context {PF : Platform}.
Variables (y : dev_id) (msg : pm_message_t).













End AfterFailedSuspend.

Section FailedSuspend.
Context {PF : Platform}.


End FailedSuspend.

(** ** The dependency waits *)

Section Settled.
Context {PF : Platform}.
Variables (en : bool) (asy : dev_id -> bool) (l : list dev_id).





End Settled.

Section DependencyWaits.
Context {PF : Platform}.
Variable yield : M unit.
Hypothesis Hyield : yield = schedule \/ yield = block.



Lemma yield_keeps_extends base : keeps (extends base) yield.
Proof.
  destruct Hyield as [-> | ->]; [|apply keeps_block].
  apply (keeps_schedule (extends base) (fun _ => True));
    intros; auto using extends_cons; try (now apply extends_same).
  apply Forall_forall. auto.
Qed.





End DependencyWaits.

Section DependencyOrder.
Context {PF : Platform}.






End DependencyOrder.

(** ** The claims on concrete machines *)

Section OnFixtures.
Import Fixture.

Lemma completion_signaled_on_error_path_witness :
  let st := machine (parent_child (-5) DPM_SUSPENDING false) [0%nat; 1%nat] false in
  let st' := final (__device_suspend schedule 0%nat PMSG_SUSPEND false st) in
  dev_done st' 0%nat = true /\ exists tr, trace st' = EvCompleteAll 0%nat :: tr.
Proof.
  exact (proj1 (completion_signaled_on_every_return schedule 0%nat PMSG_SUSPEND false
           (machine (parent_child (-5) DPM_SUSPENDING false) [0%nat; 1%nat] false)
           _ (-5) (or_introl eq_refl))).
Defined.

Lemma watchdog_fires_on_slow_callback_witness :
  let st := machine slow_suspend [0%nat] false in
  died_in_watchdog 0%nat (watchdog_timer 0%nat st) [] []
    (final (__device_suspend schedule 0%nat PMSG_SUSPEND false st)).
Proof.
  exact (proj1 (proj2 (proj2 (watchdog_disarmed_or_fatal schedule 0%nat PMSG_SUSPEND
           false (machine slow_suspend [0%nat] false)
           (machine slow_suspend [0%nat] false) eq_refl)))).
Defined.



Lemma prepare_retries_on_eagain_witness :
  let s := with_trace [EvLock] (machine retry_once [0%nat] false) in
  let s1 := final (dpm_prepare_one 0%nat PMSG_SUSPEND (prepare_entered 0%nat s)) in
  list_next (dpm_list (prepare_failed 0%nat s1)) = Some 0%nat
  /\ dev_status (prepare_failed 0%nat s1) 0%nat = DPM_ON.
Proof.
  cbv zeta.
  assert (Hone : dpm_prepare_one 0%nat PMSG_SUSPEND
                   (prepare_entered 0%nat
                      (with_trace [EvLock] (machine retry_once [0%nat] false)))
                 = Ret (- EAGAIN)
                     (final (dpm_prepare_one 0%nat PMSG_SUSPEND
                        (prepare_entered 0%nat
                           (with_trace [EvLock] (machine retry_once [0%nat] false))))))
    by (vm_compute; reflexivity).
  assert (He : - EAGAIN <> 0) by discriminate.
  pose proof (prepare_retries_on_eagain_aborts_otherwise 2 PMSG_SUSPEND []
                (with_trace [EvLock] (machine retry_once [0%nat] false)) _
                0%nat [] (- EAGAIN) eq_refl Hone He) as H.
  exact (conj (proj1 H) (proj1 (proj2 H))).
Defined.

(** C4 as stated fails: the device that answered -EAGAIN is not skipped
    and left at ON; its prepare callback is called a second time and the
    device ends the phase prepared. *)
Lemma eagain_device_is_prepared_again :
  let st := machine retry_once [0%nat] false in
  let st' := final (dpm_prepare 3 PMSG_SUSPEND st) in
  returned (dpm_prepare 3 PMSG_SUSPEND st) = Some 0
  /\ dev_status st' 0%nat = DPM_SUSPENDING
  /\ rev (trace st') =
       [EvLock; EvUnlock; EvRuntimeGet 0%nat;
        EvCall 0%nat TBus OpPrepare; EvReturn 0%nat TBus OpPrepare (- EAGAIN);
        EvLock; EvUnlock; EvRuntimeGet 0%nat;
        EvCall 0%nat TBus OpPrepare; EvReturn 0%nat TBus OpPrepare 0;
        EvLock; EvUnlock].
Proof. cbv zeta. repeat apply conj; vm_compute; reflexivity. Qed.

Lemma wakeup_request_aborts_prepare_witness :
  let s := with_trace [EvLock] (machine wakeup_pending [0%nat; 1%nat] false) in
  exists s3,
    dpm_prepare_loop 2 PMSG_SUSPEND [] s = Ret (- EBUSY, []) s3
    /\ dev_status s3 0%nat = DPM_ON
    /\ (forall y, y <> 0%nat -> devs s3 y = devs s y)
    /\ dpm_list s3 = dpm_list s
    /\ trace s3 = EvPmErr 0%nat (- EBUSY) :: EvLock :: EvRuntimePut 0%nat
                  :: EvRuntimeGet 0%nat :: EvUnlock :: trace s.
Proof.
  exact (proj1 (wakeup_request_aborts_prepare 1 PMSG_SUSPEND []
           (with_trace [EvLock] (machine wakeup_pending [0%nat; 1%nat] false))
           0%nat [1%nat] eq_refl ltac:(discriminate) eq_refl)).
Defined.

(** C5 as stated fails: the wakeup request of device 0 ends the whole
    prepare phase with -EBUSY; device 1 is never prepared and
    [dpm_suspend_start] returns the error. *)
Lemma wakeup_request_stops_the_whole_phase :
  let st := machine wakeup_pending [0%nat; 1%nat] false in
  let st' := final (dpm_prepare 5 PMSG_SUSPEND st) in
  returned (dpm_prepare 5 PMSG_SUSPEND st) = Some (- EBUSY)
  /\ returned (dpm_suspend_start 5 PMSG_SUSPEND st) = Some (- EBUSY)
  /\ trace (final (dpm_suspend_start 5 PMSG_SUSPEND st)) = trace st'
  /\ dev_status st' 1%nat = DPM_ON
  /\ rev (trace st') =
       [EvLock; EvUnlock; EvRuntimeGet 0%nat; EvRuntimePut 0%nat; EvLock;
        EvPmErr 0%nat (- EBUSY); EvUnlock].
Proof. cbv zeta. repeat apply conj; vm_compute; reflexivity. Qed.






End OnFixtures.

(** ** The phases leave the registry as they found it *)

Section RegistryOrder.
Context {PF : Platform}.
Variables (msg : pm_message_t) (l0 : list dev_id).
Hypothesis Hnd : NoDup l0.

Lemma head_not_in_rest (done rest : list dev_id) (dev : dev_id) :
  done ++ dev :: rest = l0 -> ~ In dev rest.
Proof.
  intros H Hin. rewrite <- H in Hnd. apply NoDup_remove_2 in Hnd.
  apply Hnd. apply in_or_app. now right.
Qed.

Lemma last_not_in_front (pre done : list dev_id) (dev : dev_id) :
  (pre ++ [dev]) ++ done = l0 -> ~ In dev pre.
Proof.
  intros H Hin. rewrite <- H, <- app_assoc in Hnd. apply NoDup_remove_2 in Hnd.
  apply Hnd. apply in_or_app. now left.
Qed.

Lemma prepare_loop_order (fuel : nat) :
  forall done s,
    done ++ dpm_list s = l0 ->
    wp (dpm_prepare_loop fuel msg done)
       (fun r s' => snd r ++ dpm_list s' = l0) (fun _ _ => True) s.
Proof.
  induction fuel as [|f IH]; intros done s Hinv; cbn [dpm_prepare_loop];
    apply wp_bind, wp_get;
    destruct (dpm_list s) as [|dev rest] eqn:Hl; cbn [list_next hd_error].
  - apply wp_ret. cbn [snd]. now rewrite Hl.
  - apply wp_out_of_fuel. exact I.
  - apply wp_ret. cbn [snd]. now rewrite Hl.
  - pose proof (head_not_in_rest _ _ _ Hinv) as Hrest.
    wp_pure.
    eapply wp_conseq;
      [apply (prepare_one_keeps_list dev msg (dev :: rest)); exact Hl | | auto].
    intros e s1 Hl1. cbv beta in Hl1 |- *. wp_pure.
    destruct (Z.eqb_spec e 0) as [Hz|Hnz]; cbn [negb].
    + wp_pure. unfold list_move_tail. wp_pure. st_simpl. rewrite Hl1.
      rewrite on_list_true by now left. wp_pure. apply IH.
      st_simpl. rewrite list_del_head by assumption.
      rewrite <- app_assoc. exact Hinv.
    + wp_pure. destruct (e =? - EAGAIN).
      * apply IH. st_simpl. rewrite Hl1. exact Hinv.
      * wp_pure. cbn [snd]. st_simpl. rewrite Hl1. exact Hinv.
Qed.

Lemma dpm_prepare_order (fuel : nat) (s : state) :
  dpm_list s = l0 ->
  wp (dpm_prepare fuel msg) (fun _ s' => dpm_list s' = l0) (fun _ _ => True) s.
Proof.
  intros Hl. unfold dpm_prepare. wp_pure.
  eapply wp_conseq; [apply prepare_loop_order | | auto].
  - st_simpl. exact Hl.
  - intros r s1 H. cbv beta. wp_pure. st_simpl. exact H.
Qed.





Lemma complete_loop_order (fuel : nat) :
  forall done s,
    dpm_list s ++ done = l0 ->
    wp (dpm_complete_loop fuel msg done)
       (fun done' s' => done' = l0 /\ dpm_list s' = []) (fun _ _ => True) s.
Proof.
  induction fuel as [|f IH]; intros done s Hinv; cbn [dpm_complete_loop];
    apply wp_bind, wp_get;
    destruct (list_prev (dpm_list s)) as [dev|] eqn:Hp.
  - apply wp_out_of_fuel. exact I.
  - apply wp_ret. apply list_prev_none in Hp. rewrite Hp in Hinv. auto.
  - apply list_prev_snoc in Hp. destruct Hp as [pre Hl].
    rewrite Hl in Hinv.
    pose proof (last_not_in_front _ _ _ Hinv) as Hpre.
    apply wp_bind, wp_get. apply wp_bind.
    eapply wp_conseq;
      [apply (complete_turn_keeps msg (fun _ => True) dev _ (pre ++ [dev]));
       auto
      | | auto].
    intros u s1 [_ Hl1]. cbv beta. unfold list_move. wp_pure. rewrite Hl1.
    rewrite on_list_true by (apply in_or_app; right; now left).
    wp_pure. apply IH. st_simpl. rewrite list_del_last by assumption.
    rewrite <- Hinv, <- app_assoc. reflexivity.
  - apply wp_ret. apply list_prev_none in Hp. rewrite Hp in Hinv. auto.
Qed.

Lemma dpm_complete_order (s : state) :
  dpm_list s = l0 ->
  wp (dpm_complete msg) (fun _ s' => dpm_list s' = l0) (fun _ _ => True) s.
Proof.
  intros Hl. unfold dpm_complete. wp_pure.
  eapply wp_conseq; [apply complete_loop_order | | auto].
  - st_simpl. rewrite Hl. apply app_nil_r.
  - intros done s1 [-> Hl1]. cbv beta. wp_pure. st_simpl. rewrite Hl1.
    apply app_nil_r.
Qed.

End RegistryOrder.

Section RegistryOrderOfPhases.
Context {PF : Platform}.


End RegistryOrderOfPhases.

(** ** Registration and the moves on the registry *)

Section Registry.
Context {PF : Platform}.








End Registry.

(** ** The tiers of the prepare and of the no-interrupt bodies *)

Section OtherTiers.
Context {PF : Platform}.

Lemma prepare_callbacks_plan (d : dev_id) (msg : pm_message_t) (s : state) :
  device_prepare d msg s = run_plan d (prepare_plan (devs s d)) s.
Proof.
  unfold device_prepare, prepare_plan, prepare_of, pick, pm_of_class,
    pm_of_type, pm_of_bus.
  unfold bind at 1. unfold get at 1.
  destruct (dev_bus (devs s d)) as [bus|];
    [destruct (bus_pm bus) as [bpm|]; [destruct (prepare bpm)|]|];
  (destruct (dev_type (devs s d)) as [ty|];
    [destruct (type_pm ty) as [tpm|]; [destruct (prepare tpm)|]|]);
  (destruct (dev_class (devs s d)) as [cls|];
    [destruct (class_pm cls) as [cpm|]; [destruct (prepare cpm)|]|]);
  cbn [run_plan];
  repeat (unfold bind at 1; cbn [ret Z.eqb negb]);
  try reflexivity.
  all: split_outcomes.
Qed.

Lemma suspend_noirq_plan_runs (d : dev_id) (msg : pm_message_t) (s : state) :
  device_suspend_noirq d msg s = run_plan d (suspend_noirq_plan (devs s d)) s.
Proof.
  unfold device_suspend_noirq, suspend_noirq_plan, dpm_run_callback, pick,
    pm_of_class, pm_of_type, pm_of_bus.
  unfold bind at 1. unfold get at 1.
  destruct (dev_class (devs s d)) as [cls|];
    [destruct (class_pm cls) as [cpm|]; [destruct (suspend_noirq cpm)|]|];
  (destruct (dev_type (devs s d)) as [ty|];
    [destruct (type_pm ty) as [tpm|]; [destruct (suspend_noirq tpm)|]|]);
  (destruct (dev_bus (devs s d)) as [bus|];
    [destruct (bus_pm bus) as [bpm|]; [destruct (suspend_noirq bpm)|]|]);
  cbn [run_plan];
  repeat (unfold bind at 1; cbn [ret Z.eqb negb]);
  try reflexivity.
  all: split_outcomes.
Qed.

Lemma resume_noirq_plan_runs (d : dev_id) (msg : pm_message_t) (s : state) :
  device_resume_noirq d msg s = run_plan d (resume_noirq_plan (devs s d)) s.
Proof.
  unfold device_resume_noirq, resume_noirq_plan, dpm_run_callback, pick,
    pm_of_class, pm_of_type, pm_of_bus.
  unfold bind at 1. unfold get at 1.
  destruct (dev_bus (devs s d)) as [bus|];
    [destruct (bus_pm bus) as [bpm|]; [destruct (resume_noirq bpm)|]|];
  (destruct (dev_type (devs s d)) as [ty|];
    [destruct (type_pm ty) as [tpm|]; [destruct (resume_noirq tpm)|]|]);
  (destruct (dev_class (devs s d)) as [cls|];
    [destruct (class_pm cls) as [cpm|]; [destruct (resume_noirq cpm)|]|]);
  cbn [run_plan];
  repeat (unfold bind at 1; cbn [ret Z.eqb negb]);
  try reflexivity.
  all: split_outcomes.
Qed.

Lemma with_trace_env_id (s : state) :
  with_trace (trace s) (with_env (env s) s) = s.
Proof. destruct s. reflexivity. Qed.

Lemma invoke_no_timer (d : dev_id) (t : tier) (o : op) (cb : callback)
    (s : state) :
  timers s = [] ->
  invoke d t o cb s =
  Ret (fst (cb (env s)))
      (with_trace (EvReturn d t o (fst (cb (env s))) :: EvCall d t o :: trace s)
         (with_env (snd (cb (env s))) s)).
Proof.
  intros Htm. unfold invoke, run_timers, log, bind, get, modify, ret. cbn.
  rewrite Htm. cbn. destruct s. reflexivity.
Qed.

(** With no timer pending a plan runs to its end. *)
Lemma run_plan_eval (d : dev_id) (plan : list slot) :
  forall s,
    timers s = [] ->
    run_plan d plan s = Ret (plan_result d plan s) (after_plan d plan s).
Proof.
  unfold plan_result, after_plan.
  induction plan as [|[t [[o cb]|]] r IH]; intros s Htm; cbn [run_plan plan_eval].
  - unfold ret. cbn. now rewrite with_trace_env_id.
  - unfold bind. rewrite invoke_no_timer by exact Htm.
    destruct (negb (fst (cb (env s)) =? 0)); cbn [fst snd].
    + reflexivity.
    + rewrite IH by exact Htm. cbn [env with_trace with_env trace].
      destruct (plan_eval d r (snd (cb (env s)))) as [[e' w'] later].
      cbn [fst snd]. rewrite <- app_assoc. destruct s. reflexivity.
  - now apply IH.
Qed.

Lemma plan_eval_events (d : dev_id) (plan : list slot) :
  forall w,
    Forall (fun ev => callback_of d ev = true) (snd (plan_eval d plan w))
    /\ (fst (fst (plan_eval d plan w)) <> 0 ->
        exists t o tr,
          snd (plan_eval d plan w)
          = EvReturn d t o (fst (fst (plan_eval d plan w))) :: tr).
Proof.
  induction plan as [|[t [[o cb]|]] r IH]; intros w; cbn [plan_eval].
  - cbn. split; [constructor | congruence].
  - destruct (Z.eqb_spec (fst (cb w)) 0) as [Hz|Hnz]; cbn [negb].
    + destruct (IH (snd (cb w))) as [Hall Hfail].
      destruct (plan_eval d r (snd (cb w))) as [[e' w'] later].
      cbn [fst snd] in *. split.
      * apply Forall_app. split; [exact Hall|].
        repeat constructor; cbn; apply Nat.eqb_refl.
      * intros Hne. destruct (Hfail Hne) as (t' & o' & tr & ->).
        cbn. eauto.
    + cbn [fst snd]. split.
      * repeat constructor; cbn; apply Nat.eqb_refl.
      * intros _. eauto.
  - apply IH.
Qed.

(** X4.  With no timer pending the prepare body and the two
    no-interrupt bodies of a device run to their end, and what they
    return and do is the straight run of their tiers: bus, type, class
    for [device_prepare] and [device_resume_noirq], class, type, bus for
    [device_suspend_noirq]; a tier without [dev_pm_ops] or without the
    callback is passed over (there is no legacy form), and the first
    non-zero answer ends the run and is the result. *)
Theorem prepare_and_noirq_bodies_run_their_tiers (d : dev_id)
    (msg : pm_message_t) (s : state) (Htm : timers s = []) :
  device_prepare d msg s
  = Ret (plan_result d (prepare_plan (devs s d)) s)
        (after_plan d (prepare_plan (devs s d)) s)
  /\ device_suspend_noirq d msg s
     = Ret (plan_result d (suspend_noirq_plan (devs s d)) s)
           (after_plan d (suspend_noirq_plan (devs s d)) s)
  /\ device_resume_noirq d msg s
     = Ret (plan_result d (resume_noirq_plan (devs s d)) s)
           (after_plan d (resume_noirq_plan (devs s d)) s).
Proof.
  rewrite prepare_callbacks_plan, suspend_noirq_plan_runs, resume_noirq_plan_runs.
  repeat split; now apply run_plan_eval.
Qed.

End OtherTiers.

(** ** The no-interrupt phases *)

Section NoirqPhases.
Context {PF : Platform}.

Lemma wp_total {A : Type} (m : M A) (Q : A -> state -> Prop) (s : state) :
  wp m Q (fun _ _ => False) s -> exists a s', m s = Ret a s' /\ Q a s'.
Proof. unfold wp. destruct (m s) as [a s'| | |]; try tauto. eauto. Qed.

Lemma after_plan_frame (d : dev_id) (plan : list slot) (s : state) :
  devs (after_plan d plan s) = devs s
  /\ dpm_list (after_plan d plan s) = dpm_list s
  /\ timers (after_plan d plan s) = timers s
  /\ transition_started (after_plan d plan s) = transition_started s
  /\ exists new,
       trace (after_plan d plan s) = new ++ trace s
       /\ Forall (fun ev => callback_of d ev = true) new
       /\ (plan_result d plan s <> 0 ->
           exists t o tr, new = EvReturn d t o (plan_result d plan s) :: tr).
Proof.
  unfold after_plan, plan_result.
  pose proof (plan_eval_events d plan (env s)) as [Hall Hfail].
  destruct (plan_eval d plan (env s)) as [[e w] new]. cbn [fst snd] in *.
  repeat (split; [reflexivity|]). exists new. auto.
Qed.

Lemma out_of_noirq_twice (v : dpm_state) :
  out_of_noirq (out_of_noirq v) = out_of_noirq v.
Proof. destruct v; reflexivity. Qed.

Lemma out_of_noirq_low (v : dpm_state) : dpm_gt (out_of_noirq v) DPM_OFF = false.
Proof. destruct v; reflexivity. Qed.

(** The walk of [dpm_resume_noirq] over [l]. *)
Lemma resume_noirq_walk_effect (msg : pm_message_t) (l : list dev_id) :
  forall s,
    timers s = [] ->
    wp (dpm_resume_noirq_walk l msg)
       (fun _ s' =>
          (forall y, dev_status s' y =
                     if on_list y l then out_of_noirq (dev_status s y)
                     else dev_status s y)
          /\ (forall y, on_list y l = false -> devs s' y = devs s y)
          /\ timers s' = []
          /\ dpm_list s' = dpm_list s
          /\ transition_started s' = transition_started s
          /\ extends (trace s) s')
       (fun _ _ => False) s.
Proof.
  induction l as [|dev r IH]; intros s Htm; cbn [dpm_resume_noirq_walk].
  - apply wp_ret. repeat split; auto. now exists [].
  - apply wp_bind, wp_get. apply wp_bind.
    assert (Hturn :
      wp (if dpm_gt (dev_status s dev) DPM_OFF
          then
            set_status dev DPM_OFF ;;
            error <- device_resume_noirq dev msg ;;
            (if negb (error =? 0) then pm_dev_err dev error else ret tt)
          else ret tt)
         (fun _ s1 =>
            (forall y, dev_status s1 y =
                       if Nat.eqb y dev then out_of_noirq (dev_status s y)
                       else dev_status s y)
            /\ (forall y, y <> dev -> devs s1 y = devs s y)
            /\ timers s1 = []
            /\ dpm_list s1 = dpm_list s
            /\ transition_started s1 = transition_started s
            /\ extends (trace s) s1)
         (fun _ _ => False) s).
    { unfold out_of_noirq.
      destruct (dpm_gt (dev_status s dev) DPM_OFF) eqn:Hgt.
      - wp_pure. set (s0 := with_devs _ s).
        unfold wp at 1. rewrite resume_noirq_plan_runs.
        rewrite run_plan_eval by exact Htm.
        destruct (after_plan_frame dev (resume_noirq_plan (devs s0 dev)) s0)
          as (Hd & Hl & Ht & Hs & new & Htr & _).
        assert (Hst : forall y,
                  dev_status s0 y =
                  if Nat.eqb y dev then DPM_OFF
                  else dev_status s y).
        { intros y. unfold dev_status, s0, upd_dev. cbn.
          destruct (Nat.eqb y dev); reflexivity. }
        assert (Hdv : forall y, y <> dev -> devs s0 y = devs s y).
        { intros y Hy. unfold s0. cbn. now apply upd_dev_other. }
        set (sa := after_plan dev (resume_noirq_plan (devs s0 dev)) s0) in *.
        assert (Hsta : forall y,
                  dev_status sa y =
                  if Nat.eqb y dev
                  then (if dpm_gt (dev_status s y) DPM_OFF then DPM_OFF
                        else dev_status s y)
                  else dev_status s y).
        { intros y. unfold dev_status. rewrite Hd.
          specialize (Hst y). unfold dev_status in Hst. rewrite Hst.
          destruct (Nat.eqb y dev) eqn:E; [|reflexivity].
          apply Nat.eqb_eq in E. subst y.
          unfold dev_status in Hgt. now rewrite Hgt. }
        assert (Hdva : forall y, y <> dev -> devs sa y = devs s y).
        { intros y Hy. rewrite Hd. now apply Hdv. }
        assert (Ht' : timers sa = []) by (rewrite Ht; exact Htm).
        assert (Hl' : dpm_list sa = dpm_list s) by (rewrite Hl; reflexivity).
        assert (Hs' : transition_started sa = transition_started s)
          by (rewrite Hs; reflexivity).
        assert (Htr' : trace sa = new ++ trace s) by (rewrite Htr; reflexivity).
        destruct (negb _); unfold pm_dev_err; wp_pure.
        + split; [exact Hsta|]. split; [exact Hdva|]. st_simpl.
          split; [exact Ht'|]. split; [exact Hl'|]. split; [exact Hs'|].
          eexists (_ :: new). cbn. now rewrite Htr'.
        + split; [exact Hsta|]. split; [exact Hdva|].
          split; [exact Ht'|]. split; [exact Hl'|]. split; [exact Hs'|].
          exists new. exact Htr'.
      - apply wp_ret. repeat split; auto.
        + intros y. destruct (Nat.eqb_spec y dev) as [->|]; [|reflexivity].
          now rewrite Hgt.
        + now exists []. }
    eapply wp_conseq; [exact Hturn | | auto].
    intros u s1 (Hst1 & Hdv1 & Htm1 & Hl1 & Hts1 & [n1 He1]). cbv beta.
    eapply wp_conseq; [apply (IH s1 Htm1) | | auto].
    intros u2 s2 (Hst2 & Hdv2 & Htm2 & Hl2 & Hts2 & [n2 He2]). cbv beta.
    split; [|split; [|split; [exact Htm2|split; [congruence|split; [congruence|]]]]].
    + intros y. rewrite Hst2, Hst1. cbn [on_list existsb].
      fold (on_list y r).
      destruct (Nat.eqb y dev), (on_list y r); cbn [orb];
        try reflexivity. apply out_of_noirq_twice.
    + intros y Hy. cbn [on_list existsb] in Hy. fold (on_list y r) in Hy.
      apply orb_false_iff in Hy. destruct Hy as [Hy1 Hy2].
      rewrite Hdv2 by exact Hy2. apply Hdv1. now apply Nat.eqb_neq.
    + exists (n2 ++ n1). rewrite He2, He1. now rewrite app_assoc.
Qed.

Lemma on_list_iff (y : dev_id) (l : list dev_id) : on_list y l = true <-> In y l.
Proof.
  unfold on_list. rewrite existsb_exists. split.
  - intros [x [Hx He]]. apply Nat.eqb_eq in He. now subst.
  - intros H. exists y. split; [exact H | apply Nat.eqb_refl].
Qed.

Lemma on_list_rev (y : dev_id) (l : list dev_id) :
  on_list y (rev l) = on_list y l.
Proof.
  destruct (on_list y l) eqn:H.
  - apply on_list_iff. apply -> in_rev. now apply on_list_iff.
  - destruct (on_list y (rev l)) eqn:H'; [|reflexivity].
    apply on_list_iff in H'. apply in_rev in H'. apply on_list_iff in H'.
    congruence.
Qed.

Lemma dpm_resume_noirq_effect (msg : pm_message_t) (s : state) :
  timers s = [] ->
  wp (dpm_resume_noirq msg)
     (fun _ s' =>
        (forall y, dev_status s' y =
                   if on_list y (dpm_list s) then out_of_noirq (dev_status s y)
                   else dev_status s y)
        /\ (forall y, on_list y (dpm_list s) = false -> devs s' y = devs s y)
        /\ timers s' = []
        /\ dpm_list s' = dpm_list s
        /\ transition_started s' = false
        /\ (exists new, trace s' = EvResumeIrqs :: EvUnlock :: new ++ trace s))
     (fun _ _ => False) s.
Proof.
  intros Htm. unfold dpm_resume_noirq. wp_pure.
  set (s0 := with_transition_started false _).
  eapply wp_conseq;
    [apply (resume_noirq_walk_effect msg (dpm_list s0) s0); exact Htm | | auto].
  intros u s1 (Hst & Hdv & Htm1 & Hl1 & Hts1 & [new Hnew]). cbv beta. wp_pure.
  st_simpl. unfold dev_status in *. st_simpl.
  split; [exact Hst|]. split; [exact Hdv|]. split; [exact Htm1|].
  split; [exact Hl1|]. split; [exact Hts1|].
  exists (new ++ [EvLock]). rewrite Hnew. unfold s0. cbn.
  now rewrite <- app_assoc.
Qed.

(** The walk of [dpm_suspend_noirq] over [w], which is [dpm_list] from
    its tail. *)
Lemma suspend_noirq_walk_effect (msg : pm_message_t) (w : list dev_id) :
  forall s,
    timers s = [] ->
    wp (dpm_suspend_noirq_walk w msg)
       (fun e s' =>
          timers s' = []
          /\ dpm_list s' = dpm_list s
          /\ extends (trace s) s'
          /\ exists reached,
               (forall y, dev_status s' y =
                          if on_list y reached then DPM_OFF_IRQ
                          else dev_status s y)
               /\ (forall y, on_list y reached = false -> devs s' y = devs s y)
               /\ (e = 0 -> reached = w)
               /\ (e <> 0 ->
                   exists k rest,
                     w = reached ++ k :: rest /\ failed_since k e (trace s) s'))
       (fun _ _ => False) s.
Proof.
  induction w as [|dev r IH]; intros s Htm; cbn [dpm_suspend_noirq_walk].
  - apply wp_ret. repeat (split; [auto|]). now exists [].
    exists []. repeat split; auto; congruence.
  - apply wp_bind. unfold wp at 1. rewrite suspend_noirq_plan_runs.
    rewrite run_plan_eval by exact Htm.
    destruct (after_plan_frame dev (suspend_noirq_plan (devs s dev)) s)
      as (Hd & Hl & Ht & Hs & new & Htr & Hall & Hfail).
    set (sa := after_plan dev (suspend_noirq_plan (devs s dev)) s) in *.
    set (e := plan_result dev (suspend_noirq_plan (devs s dev)) s) in *.
    destruct (Z.eqb_spec e 0) as [Hz|Hnz]; cbn [negb].
    + wp_pure. set (s1 := with_devs _ sa).
      eapply wp_conseq; [apply (IH s1); unfold s1; cbn; congruence | | auto].
      intros e2 s2 (Htm2 & Hl2 & [n2 He2] & reached & Hst & Hdv & Hok & Hbad).
      cbv beta. split; [exact Htm2|]. split; [rewrite Hl2; exact Hl|].
      split; [exists (n2 ++ new); rewrite He2; unfold s1; cbn;
              rewrite Htr; now rewrite app_assoc|].
      exists (dev :: reached). split; [|split; [|split]].
      * intros y. rewrite Hst. cbn [on_list existsb]. fold (on_list y reached).
        destruct (on_list y reached); [now rewrite orb_true_r|].
        rewrite orb_false_r. unfold s1, dev_status, upd_dev. cbn. rewrite Hd.
        destruct (Nat.eqb y dev); reflexivity.
      * intros y Hy. cbn [on_list existsb] in Hy. fold (on_list y reached) in Hy.
        apply orb_false_iff in Hy. destruct Hy as [Hy1 Hy2].
        rewrite Hdv by exact Hy2. unfold s1. cbn.
        rewrite upd_dev_other by (now apply Nat.eqb_neq). now rewrite Hd.
      * intros H0. now rewrite (Hok H0).
      * intros Hne. destruct (Hbad Hne) as (k & rest & Hw & t & o & nk & Hnk & Hin).
        exists k, rest. split; [now rewrite Hw|].
        exists t, o, (nk ++ new). unfold s1 in Hnk. cbn in Hnk.
        rewrite Hnk, Htr, app_assoc. split; [reflexivity|].
        apply in_or_app. now left.
    + unfold pm_dev_err. wp_pure. st_simpl.
      split; [rewrite Ht; exact Htm|]. split; [exact Hl|].
      split; [exists (EvPmErr dev e :: new); cbn; now rewrite Htr|].
      exists []. split; [|split; [|split]].
      * intros y. unfold dev_status. cbn. now rewrite Hd.
      * intros y _. cbn. now rewrite Hd.
      * congruence.
      * intros _. exists dev, r. split; [reflexivity|].
        destruct (Hfail Hnz) as (t & o & tr & Hn).
        exists t, o, (EvPmErr dev e :: new). cbn. rewrite Htr.
        split; [reflexivity|]. right. rewrite Hn. now left.
Qed.

Lemma on_list_false (y : dev_id) (l : list dev_id) :
  ~ In y l -> on_list y l = false.
Proof.
  intros H. destruct (on_list y l) eqn:E; [|reflexivity].
  apply on_list_iff in E. contradiction.
Qed.

(** X5.  With no timer pending [dpm_resume_noirq] always comes back:
    a failing early-resume callback is only reported and the walk goes
    on.  Afterwards no device of [dpm_list] is above DPM_OFF (those
    that were are at DPM_OFF, the others are as they were),
    [transition_started] is reset, the list is unchanged, and the last
    thing done, after the mutex is released, is to turn the device
    interrupts back on. *)
Theorem dpm_resume_noirq_brings_all_out (msg : pm_message_t) (s : state)
    (Htm : timers s = []) :
  exists s',
    dpm_resume_noirq msg s = Ret tt s'
    /\ (forall y, In y (dpm_list s) ->
                  dev_status s' y = out_of_noirq (dev_status s y))
    /\ (forall y, ~ In y (dpm_list s) -> devs s' y = devs s y)
    /\ dpm_list s' = dpm_list s
    /\ transition_started s' = false
    /\ exists new, trace s' = EvResumeIrqs :: EvUnlock :: new ++ trace s.
Proof.
  destruct (wp_total _ _ _ (dpm_resume_noirq_effect msg s Htm))
    as ([] & s' & Hrun & Hst & Hdv & _ & Hl & Hts & Htr).
  exists s'. split; [exact Hrun|]. split; [|split; [|auto]].
  - intros y Hy. rewrite Hst. now rewrite on_list_true.
  - intros y Hy. apply Hdv. now apply on_list_false.
Qed.

(** X6.  With no timer pending [dpm_suspend_noirq] always comes back,
    and it is all or nothing.  When it returns 0 every device of
    [dpm_list] is at DPM_OFF_IRQ.  When a late-suspend callback fails,
    its error is what is returned, and before returning the function
    runs [dpm_resume_noirq] itself: the devices it had already put at
    DPM_OFF_IRQ are back at DPM_OFF, no device of the list is above
    DPM_OFF, and the device interrupts are on again. *)
Theorem dpm_suspend_noirq_all_or_nothing (msg : pm_message_t) (s : state)
    (Htm : timers s = []) :
  exists e s',
    dpm_suspend_noirq msg s = Ret e s'
    /\ dpm_list s' = dpm_list s
    /\ (e = 0 ->
        all_at (dpm_list s) DPM_OFF_IRQ s'
        /\ (forall y, ~ In y (dpm_list s) -> devs s' y = devs s y)
        /\ exists new, trace s' = EvUnlock :: new ++ EvLock :: EvSuspendIrqs :: trace s)
    /\ (e <> 0 ->
        (exists waiting k reached,
           dpm_list s = waiting ++ k :: reached
           /\ failed_since k e (trace s) s'
           /\ all_at reached DPM_OFF s')
        /\ (forall y, In y (dpm_list s) -> dpm_gt (dev_status s' y) DPM_OFF = false)
        /\ transition_started s' = false
        /\ exists tr, trace s' = EvResumeIrqs :: tr).
Proof.
  apply wp_total. unfold dpm_suspend_noirq. wp_pure.
  set (s0 := with_trace (EvLock :: _) _).
  eapply wp_conseq;
    [apply (suspend_noirq_walk_effect msg (rev (dpm_list s0)) s0); exact Htm
    | | auto].
  intros e s1 (Htm1 & Hl1 & [n1 He1] & reached & Hst & Hdv & Hok & Hbad).
  cbv beta. wp_pure.
  destruct (Z.eqb_spec e 0) as [Hz|Hnz]; cbn [negb].
  - wp_pure. st_simpl. split; [exact Hl1|]. split; [|congruence].
    intros _. rewrite (Hok Hz) in Hst, Hdv. split; [|split].
    + intros y Hy. unfold dev_status in *. st_simpl. rewrite Hst.
      rewrite on_list_rev. unfold s0. st_simpl. now rewrite on_list_true.
    + intros y Hy. st_simpl. rewrite Hdv; [reflexivity|].
      rewrite on_list_rev. unfold s0. st_simpl. now apply on_list_false.
    + exists n1. rewrite He1. reflexivity.
  - destruct (Hbad Hnz) as (k & rest & Hw & t & o & nk & Hnk & Hin).
    set (s2 := with_trace (EvUnlock :: trace s1) s1).
    eapply wp_conseq;
      [apply (dpm_resume_noirq_effect (resume_event msg) s2); exact Htm1
      | | auto].
    intros u s3 (Hst3 & Hdv3 & Htm3 & Hl3 & Hts3 & [n3 He3]). cbv beta.
    wp_pure.
    assert (Hl2 : dpm_list s2 = dpm_list s) by (unfold s2; cbn; exact Hl1).
    assert (Hrev : dpm_list s = rev rest ++ k :: rev reached).
    { unfold s0 in Hw. cbn in Hw. apply (f_equal (@rev _)) in Hw.
      rewrite rev_involutive in Hw. rewrite Hw, rev_app_distr. cbn.
      now rewrite <- app_assoc. }
    split; [rewrite Hl3; exact Hl2|]. split; [congruence|]. intros _.
    split; [|split; [|split; [exact Hts3|]]].
    + exists (rev rest), k, (rev reached). split; [exact Hrev|]. split.
      * exists t, o, (EvResumeIrqs :: EvUnlock :: n3 ++ EvUnlock :: nk
                      ++ [EvLock; EvSuspendIrqs]).
        rewrite He3. unfold s2. cbn. rewrite Hnk. unfold s0. cbn.
        rewrite <- !app_assoc. cbn. rewrite <- !app_assoc. cbn.
        split; [reflexivity|]. right. right. apply in_or_app. right.
        right. apply in_or_app. now left.
      * intros y Hy. rewrite Hst3, Hl2.
        rewrite on_list_true
          by (rewrite Hrev; apply in_or_app; right; now right).
        unfold s2, dev_status. cbn. fold (dev_status s1 y). rewrite Hst.
        rewrite on_list_true by (now apply in_rev in Hy). reflexivity.
    + intros y Hy. rewrite Hst3, Hl2. rewrite on_list_true by exact Hy.
      apply out_of_noirq_low.
    + eexists. rewrite He3. reflexivity.
Qed.

End NoirqPhases.

(** ** What the complete phase leaves alone *)

Section CompleteSkips.
Context {PF : Platform}.
Variables (y : dev_id) (msg : pm_message_t) (base : list event_t)
          (v : dpm_state).
Hypothesis Hv : dpm_gt v DPM_ON = false.

Let P (s : state) : Prop := dev_status s y = v /\ silent_since y base s.

Lemma silent_cons e s :
  mentions y e = false -> silent_since y base s ->
  silent_since y base (with_trace (e :: trace s) s).
Proof.
  intros He [new [Htr Hall]]. exists (e :: new). cbn. rewrite Htr.
  split; [reflexivity | now constructor].
Qed.

Lemma silent_app new s s' :
  trace s' = new ++ trace s -> Forall (fun e => mentions y e = false) new ->
  silent_since y base s -> silent_since y base s'.
Proof.
  intros Htr Hnew [n0 [H0 Hall]]. exists (new ++ n0).
  rewrite Htr, H0, app_assoc. split; [reflexivity|].
  apply Forall_app. now split.
Qed.

Lemma callback_of_other_silent (d : dev_id) (new : list event_t) :
  d <> y -> Forall (fun e => callback_of d e = true) new ->
  Forall (fun e => mentions y e = false) new.
Proof.
  intros Hne H. induction H as [|e r He Hr IH]; constructor; [|exact IH].
  destruct e; cbn in *; try discriminate; try reflexivity;
    apply Nat.eqb_eq in He; subst; now apply Nat.eqb_neq.
Qed.

Lemma device_complete_events (d : dev_id) (s : state) :
  wp (device_complete d msg)
     (fun _ s' =>
        devs s' = devs s /\ dpm_list s' = dpm_list s
        /\ exists new, trace s' = new ++ trace s
                       /\ Forall (fun e => callback_of d e = true) new)
     (fun _ _ => True) s.
Proof.
  unfold device_complete. apply wp_bind, wp_get.
  assert (Hstep : forall (t : tier) (slot : option void_callback) (s1 : state),
            wp (match slot with
                | Some cb => invoke_void d t OpComplete cb
                | None => ret tt
                end)
               (fun _ s2 =>
                  devs s2 = devs s1 /\ dpm_list s2 = dpm_list s1
                  /\ exists new, trace s2 = new ++ trace s1
                       /\ Forall (fun e => callback_of d e = true) new)
               (fun _ _ => True) s1).
  { intros t [cb|] s1.
    - eapply wp_conseq; [apply invoke_void_effect | | auto].
      intros u s2 (Ht & Hd & Hl). cbv beta. split; [exact Hd|].
      split; [exact Hl|]. eexists [_; _]. split; [exact Ht|].
      repeat constructor; cbn; apply Nat.eqb_refl.
    - apply wp_ret. repeat split. exists []. split; [reflexivity|constructor]. }
  apply wp_bind. eapply wp_conseq; [apply Hstep | | auto].
  intros u1 s1 (Hd1 & Hl1 & n1 & He1 & Ha1). cbv beta.
  apply wp_bind. eapply wp_conseq; [apply Hstep | | auto].
  intros u2 s2 (Hd2 & Hl2 & n2 & He2 & Ha2). cbv beta.
  eapply wp_conseq; [apply Hstep | | auto].
  intros u3 s3 (Hd3 & Hl3 & n3 & He3 & Ha3). cbv beta.
  split; [congruence|]. split; [congruence|].
  exists (n3 ++ n2 ++ n1). rewrite He3, He2, He1, !app_assoc.
  split; [reflexivity|]. repeat (apply Forall_app; split); assumption.
Qed.

Lemma complete_turn_skips (dev : dev_id) (s : state) :
  P s ->
  wp (if dpm_gt (dev_status s dev) DPM_ON
      then
        set_status dev DPM_ON ;;
        mutex_unlock ;;
        device_complete dev msg ;;
        pm_runtime_put_sync dev ;;
        mutex_lock
      else ret tt)
     (fun _ s' => P s' /\ dpm_list s' = dpm_list s) (fun _ _ => True) s.
Proof.
  intros [Hst Hq].
  destruct (dpm_gt (dev_status s dev) DPM_ON) eqn:Hgt;
    [|apply wp_ret; split; [split; assumption | reflexivity]].
  assert (Hne : dev <> y).
  { intros ->. rewrite Hst, Hv in Hgt. discriminate. }
  wp_pure. set (s0 := with_trace _ _).
  eapply wp_conseq; [apply (device_complete_events dev s0) | | auto].
  intros u s1 (Hd1 & Hl1 & new & Htr & Hall). cbv beta.
  unfold pm_runtime_put_sync. wp_pure. split; [split|].
  - unfold dev_status. cbn. rewrite Hd1. unfold s0. cbn.
    rewrite upd_dev_other by congruence. exact Hst.
  - apply silent_cons; [reflexivity|].
    apply silent_cons; [cbn; now apply Nat.eqb_neq|].
    apply (silent_app new s0); [exact Htr | now apply (callback_of_other_silent dev) |].
    unfold s0. apply silent_cons; [reflexivity|].
    destruct Hq as [n0 [H0 Ha0]]. exists n0. cbn. auto.
  - cbn. exact Hl1.
Qed.

Lemma complete_loop_skips (fuel : nat) :
  forall done s,
    P s ->
    wp (dpm_complete_loop fuel msg done) (fun _ s' => P s') (fun _ _ => True) s.
Proof.
  induction fuel as [|f IH]; intros done s HP; cbn [dpm_complete_loop];
    apply wp_bind, wp_get;
    destruct (list_prev (dpm_list s)) as [dev|] eqn:Hp.
  - apply wp_out_of_fuel. exact I.
  - apply wp_ret. exact HP.
  - apply wp_bind, wp_get. apply wp_bind.
    eapply wp_conseq; [apply (complete_turn_skips dev s HP) | | auto].
    intros u s1 [HP1 Hl1]. cbv beta. unfold list_move. wp_pure.
    destruct (on_list dev (dpm_list s1)); wp_pure; apply IH.
    + destruct HP1 as [H1 [n [H2 H3]]]. split; [exact H1|]. now exists n.
    + exact HP1.
  - apply wp_ret. exact HP.
Qed.

Lemma dpm_complete_skips (s : state) :
  dev_status s y = v -> base = trace s ->
  wp (dpm_complete msg) (fun _ s' => P s') (fun _ _ => True) s.
Proof.
  intros Hst Hb. unfold dpm_complete. wp_pure.
  eapply wp_conseq; [apply complete_loop_skips | | auto].
  - split; [exact Hst|]. exists [EvLock]. cbn. rewrite Hb.
    split; [reflexivity | now constructor].
  - intros done s1 HP1. cbv beta. wp_pure.
    destruct HP1 as [H1 [n [H2 H3]]]. split; [exact H1|].
    exists (EvUnlock :: n). cbn. rewrite H2.
    split; [reflexivity | now constructor].
Qed.

End CompleteSkips.

Section CompleteFlag.
Context {PF : Platform}.

Lemma dpm_complete_resets_flag (msg : pm_message_t) (s : state) :
  wp (dpm_complete msg) (fun _ s' => transition_started s' = false)
     (fun _ _ => True) s.
Proof.
  unfold dpm_complete. wp_pure.
  eapply wp_conseq;
    [apply (ev_complete_loop (fun x => transition_started x = false));
     auto
    | | auto].
  intros done s1 H1. cbv beta in H1 |- *. wp_pure. exact H1.
Qed.

(** X7.  [dpm_complete] leaves a device that is at DPM_ON (or was never
    initialised) alone, listed or not: its status stays, none of its
    callbacks is entered and [pm_runtime_put_sync] is not called for
    it.  [dpm_complete] also resets [transition_started]. *)
Theorem dpm_complete_skips_devices_at_on (y : dev_id) (msg : pm_message_t)
    (s s' : state)
    (Hon : dpm_gt (dev_status s y) DPM_ON = false)
    (Hrun : dpm_complete msg s = Ret tt s') :
  dev_status s' y = dev_status s y
  /\ silent_since y (trace s) s'
  /\ transition_started s' = false.
Proof.
  pose proof (wp_ret_eq _ _ _ _ _ _ Hrun
                (dpm_complete_skips y msg (trace s) (dev_status s y) Hon s
                   eq_refl eq_refl)) as [H1 H2].
  pose proof (wp_ret_eq _ _ _ _ _ _ Hrun (dpm_complete_resets_flag msg s)) as H3.
  auto.
Qed.

End CompleteFlag.

(** ** Registering a device while a transition is under way *)

Section TransitionFlag.
Context {PF : Platform}.

Lemma dpm_prepare_sets_flag (fuel : nat) (msg : pm_message_t) (s : state) :
  wp (dpm_prepare fuel msg) (fun _ s' => transition_started s' = true)
     (fun _ _ => True) s.
Proof.
  unfold dpm_prepare. wp_pure.
  eapply wp_conseq;
    [apply (ev_prepare_loop (fun x => transition_started x = true)); auto
    | | auto].
  intros r s1 H1. cbv beta in H1 |- *. wp_pure. exact H1.
Qed.

Lemma parent_kept_by_prepare (d : dev_id) (p : option dev_id) (fuel : nat)
    (msg : pm_message_t) :
  keeps (fun s => parent (devs s d) = p) (dpm_prepare fuel msg).
Proof.
  apply ev_dpm_prepare; auto; intros; cbn; unfold upd_dev;
    destruct (Nat.eqb d x); auto.
Qed.

Lemma device_pm_add_parentless (d : dev_id) (s : state) :
  parent (devs s d) = None ->
  device_pm_add d s =
  Ret tt (with_trace
            (EvUnlock :: (if transition_started s then [EvWarn d] else [])
             ++ EvLock :: trace s)
            (with_dpm_list (dpm_list s ++ [d]) s)).
Proof.
  intros Hp. unfold device_pm_add, mutex_lock, mutex_unlock, log, bind, get,
    modify, ret. cbn. rewrite Hp. destruct (transition_started s); reflexivity.
Qed.

Lemma device_pm_add_child (d p : dev_id) (s : state) :
  parent (devs s d) = Some p ->
  device_pm_add d s =
  Ret tt (with_trace
            (EvUnlock
             :: (if dpm_ge (dev_status s p) DPM_SUSPENDING then [EvWarn d] else [])
             ++ EvLock :: trace s)
            (with_dpm_list (dpm_list s ++ [d]) s)).
Proof.
  intros Hp. unfold device_pm_add, mutex_lock, mutex_unlock, log, bind, get,
    modify, ret. cbn. rewrite Hp. cbn.
  change (dev_status (with_trace (EvLock :: trace s) s) p)
    with (dev_status s p).
  destruct (dpm_ge (dev_status s p) DPM_SUSPENDING); reflexivity.
Qed.

Lemma parent_kept_by_complete (d : dev_id) (p : option dev_id)
    (msg : pm_message_t) :
  keeps (fun s => parent (devs s d) = p) (dpm_complete msg).
Proof.
  apply ev_dpm_complete; auto; intros; cbn; unfold upd_dev;
    destruct (Nat.eqb d x); auto.
Qed.

(** X8.  [dpm_prepare] sets [transition_started], whatever it returns,
    and from then on [device_pm_add] warns about a device without a
    parent; after a successful prepare it also warns about a new child
    of any listed device, whose parent is then at DPM_SUSPENDING.  In
    both cases the device is put at the tail of the list all the same.
    Once [dpm_complete] has run, a parentless device is registered
    without a warning again. *)
Theorem registration_during_a_transition (fuel : nat) (msg : pm_message_t)
    (d : dev_id) (s s1 : state) (e : Z)
    (Hnd : NoDup (dpm_list s))
    (Hprep : dpm_prepare fuel msg s = Ret e s1) :
  transition_started s1 = true
  /\ (parent (devs s d) = None ->
      device_pm_add d s1 =
      Ret tt (with_trace (EvUnlock :: EvWarn d :: EvLock :: trace s1)
                (with_dpm_list (dpm_list s ++ [d]) s1)))
  /\ (forall p,
        parent (devs s d) = Some p -> In p (dpm_list s) -> e = 0 ->
        device_pm_add d s1 =
        Ret tt (with_trace (EvUnlock :: EvWarn d :: EvLock :: trace s1)
                  (with_dpm_list (dpm_list s ++ [d]) s1)))
  /\ (forall cmsg s2,
        dpm_complete cmsg s1 = Ret tt s2 -> parent (devs s d) = None ->
        device_pm_add d s2 =
        Ret tt (with_trace (EvUnlock :: EvLock :: trace s2)
                  (with_dpm_list (dpm_list s ++ [d]) s2))).
Proof.
  pose proof (wp_ret_eq _ _ _ _ _ _ Hprep (dpm_prepare_sets_flag fuel msg s))
    as Hflag.
  pose proof (wp_ret_eq _ _ _ _ _ _ Hprep
                (dpm_prepare_order msg (dpm_list s) Hnd fuel s eq_refl)) as Hl1.
  assert (Hpar : parent (devs s1 d) = parent (devs s d)).
  { exact (keeps_ret_eq _ _ _ _ _
             (parent_kept_by_prepare d (parent (devs s d)) fuel msg)
             eq_refl Hprep). }
  split; [exact Hflag|]. split; [|split].
  - intros Hnone. rewrite device_pm_add_parentless by congruence.
    rewrite Hflag, Hl1. reflexivity.
  - intros p Hp Hin He. subst e.
    rewrite (device_pm_add_child d p) by congruence.
    destruct (wp_ret_eq _ _ _ _ _ _ Hprep
                (dpm_prepare_all_suspending msg fuel s Hnd) eq_refl)
      as [_ Hall].
    rewrite (Hall p) by (rewrite Hl1; exact Hin). rewrite Hl1. reflexivity.
  - intros cmsg s2 Hcomp Hnone.
    pose proof (wp_ret_eq _ _ _ _ _ _ Hcomp (dpm_complete_resets_flag cmsg s1))
      as Hflag2.
    assert (Hnd1 : NoDup (dpm_list s1)) by (rewrite Hl1; exact Hnd).
    pose proof (wp_ret_eq _ _ _ _ _ _ Hcomp
                  (dpm_complete_order cmsg (dpm_list s1) Hnd1 s1 eq_refl)) as Hl2.
    assert (Hpar2 : parent (devs s2 d) = parent (devs s1 d)).
    { exact (keeps_ret_eq _ _ _ _ _
               (parent_kept_by_complete d (parent (devs s1 d)) cmsg)
               eq_refl Hcomp). }
    rewrite device_pm_add_parentless by congruence.
    rewrite Hflag2, Hl2, Hl1. reflexivity.
Qed.

End TransitionFlag.

(** ** The way back *)

Section WayBack.
Context {PF : Platform}.

Lemma synchronize_leaves_none (s : state) :
  wp async_synchronize_full (fun _ s' => async_pending s' = [])
     (fun _ _ => True) s.
Proof.
  unfold async_synchronize_full.
  apply wp_bind; apply wp_any; [intros u s0 | intros; exact I].
  apply wp_bind, wp_get.
  destruct (async_pending s0) eqn:Hp; [apply wp_ret; exact Hp | apply wp_block; exact I].
Qed.


Lemma dpm_suspend_leaves_none (msg : pm_message_t) (s : state) :
  wp (dpm_suspend msg) (fun _ s' => async_pending s' = []) (fun _ _ => True) s.
Proof.
  unfold dpm_suspend. do 7 wp_skip. apply wp_bind.
  eapply wp_conseq; [apply synchronize_leaves_none | | auto].
  intros u s1 H. cbv beta. wp_pure. exact H.
Qed.



End WayBack.

(** ** The workers get the queued work done *)

Section AsyncWork.
Context {PF : Platform}.
Variable Fin : dev_id -> state -> Prop.
Variable allowed : async_task -> Prop.

Hypothesis Fin_pending :
  forall y s l, Fin y s -> Fin y (with_async_pending l s).
Hypothesis Hother :
  forall t y s, allowed t -> task_dev t <> y -> Fin y s ->
    wp (run_task t) (fun _ s' => Fin y s') (fun _ _ => True) s.
Hypothesis Hown :
  forall t s, allowed t ->
    wp (run_task t) (fun _ s' => Fin (task_dev t) s') (fun _ _ => True) s.









End AsyncWork.

(** ** A suspend phase that reports success has suspended every device *)

Section SuspendBodyResult.
Context {PF : Platform}.




Lemma sof_error (y : dev_id) (e : Z) (s : state) :
  e <> 0 -> suspended_or_failed y (with_async_error e s).
Proof. intros He. now left. Qed.


End SuspendBodyResult.

(** Invariants of a body whose sleeps let other work run to an end that
    need not keep the invariant when it does not return. *)
Section FrameOfBodies.
Context {PF : Platform}.
Variables (yield : M unit) (I : state -> Prop) (x : dev_id).

Hypothesis Hplain :
  forall s e, plain e = true -> I s -> I (with_trace (e :: trace s) s).
Hypothesis Hcall :
  forall s t o, I s -> I (with_trace (EvCall x t o :: trace s) s).
Hypothesis Hreturn :
  forall s t o r, I s -> I (with_trace (EvReturn x t o r :: trace s) s).
Hypothesis Henv : forall s w, I s -> I (with_env w s).
Hypothesis Hstatus :
  forall s v, v <> DPM_INVALID -> I s ->
    I (with_devs (upd_dev x (with_power (set_power_status v))) s).
Hypothesis Hsignal :
  forall s, I s -> I (with_devs (upd_dev x (with_power (set_power_completion true))) s).
Hypothesis Htimers : forall s l, I s -> I (with_timers l s).
Hypothesis Hyield :
  forall s, I s -> wp yield (fun _ => I) (fun _ _ => True) s.









End FrameOfBodies.

Section SuspendWork.
Context {PF : Platform}.













Variables (msg : pm_message_t) (l0 : list dev_id).
Hypothesis Hnd : NoDup l0.




End SuspendWork.

Section SuspendSuccess.
Context {PF : Platform}.



End SuspendSuccess.

(** ** The resume phase brings every device of the list to DPM_RESUMING *)

Section ResumeSwitches.
Context {PF : Platform}.
Variables (y : dev_id) (am en tr : bool).

Lemma switches_upd (x : dev_id) (f : dev_pm_info -> dev_pm_info) (s : state) :
  (forall p, power_async_suspend (f p) = power_async_suspend p) ->
  switches y am en tr s ->
  switches y am en tr (with_devs (upd_dev x (with_power f)) s).
Proof.
  intros Hf (H1 & H2 & H3). unfold switches, upd_dev in *. cbn.
  split; [|auto]. destruct (Nat.eqb y x); cbn; [rewrite Hf|]; exact H1.
Qed.



Lemma switches_kept_by_schedule : keeps (switches y am en tr) schedule.
Proof.
  apply (keeps_schedule (switches y am en tr) (fun _ => True)); auto;
    intros; try (now apply switches_upd).
  apply Forall_forall. auto.
Qed.

End ResumeSwitches.

Section ResumeBodyResult.
Context {PF : Platform}.


End ResumeBodyResult.

(** A device [y] for which no task is queued: it is not marked async,
    or it is not suspended far enough for the first loop of
    [dpm_resume] to look at it. *)
Section ResumeOfIdleDevice.
Context {PF : Platform}.
Variables (y : dev_id) (msg : pm_message_t) (am en tr : bool).

Let J (v : dpm_state) (s : state) : Prop :=
  idle_at y v s /\ switches y am en tr s.









Variable v0 : dpm_state.
Hypothesis Hidle_mark :
  dpm_ge v0 DPM_OFF = true -> am && en && negb tr = false.








End ResumeOfIdleDevice.

(** A device [y] that the first loop of [dpm_resume] hands to a worker. *)
Section ResumeWork.
Context {PF : Platform}.

















Variables (y : dev_id) (msg : pm_message_t) (am en tr : bool)
  (v0 : dpm_state).
Hypothesis Hmark : am && en && negb tr = true.
Hypothesis Hoff : dpm_ge v0 DPM_OFF = true.









End ResumeWork.

Section ResumeResult.
Context {PF : Platform}.


End ResumeResult.

(** ** Runtime-PM references taken and given back by the phases *)

Section RuntimeReferences.
Context {PF : Platform}.



Lemma run_plan_refs (y d : dev_id) (plan : list slot) (s : state) :
  wp (run_plan d plan)
     (fun _ s' =>
        runtime_refs y (trace s') = runtime_refs y (trace s)
        /\ devs s' = devs s /\ dpm_list s' = dpm_list s)
     (fun _ _ => True) s.
Proof.
  revert s. induction plan as [|[t [[o cb]|]] r IH]; intros s; cbn [run_plan].
  - apply wp_ret. auto.
  - apply wp_bind. unfold invoke, run_timers, dpm_drv_timeout.
    wp_pure. st_simpl. destruct (find _ _).
    + wp_pure. apply wp_BUG. exact I.
    + wp_pure. st_simpl.
      destruct (negb (fst (cb (env s)) =? 0)).
      * apply wp_ret. st_simpl. cbn. auto.
      * eapply wp_conseq; [apply IH | | auto].
        intros e s' (Hr & Hd & Hl). cbv beta. st_simpl in Hr.
        st_simpl in Hd. st_simpl in Hl. auto.
  - apply IH.
Qed.

(** One attempt of [dpm_prepare] on [dev]: a reference is taken, and
    given back only on the wake-up path. *)
Lemma prepare_one_refs (dev : dev_id) (msg : pm_message_t) (s : state) :
  wp (dpm_prepare_one dev msg)
     (fun e s' =>
        (forall y, runtime_refs y (trace s) <= runtime_refs y (trace s'))
        /\ (e <> - EBUSY ->
            runtime_refs dev (trace s') = runtime_refs dev (trace s) + 1)
        /\ devs s' = devs s /\ dpm_list s' = dpm_list s)
     (fun _ _ => True) s.
Proof.
  unfold dpm_prepare_one, pm_runtime_get_noresume, pm_runtime_barrier,
    pm_runtime_put_sync.
  wp_pure. set (s1 := with_env _ _).
  destruct (_ && _).
  - wp_pure. cbn. split; [|split; [intros H; now contradiction H | auto]].
    intros y. destruct (Nat.eqb dev y); lia.
  - unfold wp. rewrite prepare_callbacks_plan.
    pose proof (run_plan_refs dev dev (prepare_plan (devs s1 dev)) s1) as Hown.
    assert (Hall : forall y,
              wp (run_plan dev (prepare_plan (devs s1 dev)))
                 (fun _ s' => runtime_refs y (trace s') = runtime_refs y (trace s1))
                 (fun _ _ => True) s1).
    { intros y. eapply wp_conseq; [apply (run_plan_refs y dev) | | auto].
      intros e s' H. apply H. }
    unfold wp in *.
    destruct (run_plan dev (prepare_plan (devs s1 dev)) s1) as [e s'| | |];
      auto.
    destruct Hown as (Hr & Hd & Hl).
    split; [|split; [|split]].
    + intros y. specialize (Hall y). cbn in Hall. rewrite Hall.
      destruct (Nat.eqb dev y); lia.
    + intros _. rewrite Hr. unfold s1. cbn. rewrite Nat.eqb_refl. lia.
    + rewrite Hd. reflexivity.
    + rewrite Hl. reflexivity.
Qed.

Variables (msg : pm_message_t) (l0 : list dev_id) (base : dev_id -> Z).

Let Inv (done : list dev_id) (s : state) : Prop :=
  (forall y, base y <= runtime_refs y (trace s))
  /\ (forall y, In y done -> base y + 1 <= runtime_refs y (trace s))
  /\ (forall y, In y l0 -> In y (dpm_list s) \/ In y done)
  /\ (forall y, In y (dpm_list s) -> In y l0).

Lemma prepare_loop_refs (fuel : nat) :
  forall done s,
    Inv done s ->
    wp (dpm_prepare_loop fuel msg done)
       (fun r s' =>
          (forall y, base y <= runtime_refs y (trace s'))
          /\ (fst r = 0 ->
              forall y, In y l0 -> base y + 1 <= runtime_refs y (trace s'))
          /\ (fst r <> 0 -> fst r <> - EBUSY ->
              exists d, In d l0 /\ dev_status s' d = DPM_ON
                        /\ base d + 1 <= runtime_refs d (trace s')))
       (fun _ _ => True) s.
Proof.
  induction fuel as [|f IH]; intros done s (Hge & Hdone & Hcov & Hsub);
    cbn [dpm_prepare_loop]; apply wp_bind, wp_get;
    destruct (dpm_list s) as [|dev rest] eqn:Hl; cbn [list_next hd_error];
    try (apply wp_out_of_fuel; exact I);
    try (apply wp_ret; cbn [fst snd]; split; [exact Hge|]; split;
         [intros _ y Hy; destruct (Hcov y Hy) as [[]|Hd]; now apply Hdone
         | intros H; now contradiction H]).
  unfold set_status, mutex_unlock. wp_pure. set (s1 := with_trace _ _).
  eapply wp_conseq; [apply (prepare_one_refs dev msg s1) | | auto].
  intros e s2 (Hmono & Hown & Hd2 & Hl2). cbv beta.
  assert (Hge2 : forall y, base y <= runtime_refs y (trace s2)).
  { intros y. specialize (Hmono y). specialize (Hge y). unfold s1 in Hmono.
    cbn in Hmono. lia. }
  assert (Hl2' : dpm_list s2 = dev :: rest) by (rewrite Hl2; exact Hl).
  unfold mutex_lock. wp_pure.
  destruct (Z.eqb_spec e 0) as [Hz|Hnz]; cbn [negb].
  - subst e. wp_pure. unfold list_move_tail. wp_pure. st_simpl.
    rewrite Hl2', on_list_true by now left. wp_pure. apply IH.
    split; [|split; [|split]]; st_simpl.
    + intros y. cbn. apply Hge2.
    + intros y Hy. cbn. apply in_app_or in Hy as [Hy|[<-|[]]].
      * specialize (Hdone y Hy). specialize (Hmono y). unfold s1 in Hmono.
        cbn in Hmono. lia.
      * assert (H0 : 0 <> - EBUSY) by discriminate.
        specialize (Hown H0). specialize (Hge dev). unfold s1 in Hown.
        cbn in Hown. lia.
    + intros y Hy. destruct (Nat.eq_dec y dev) as [->|Hne].
      * right. apply in_or_app. right. now left.
      * destruct (Hcov y Hy) as [Hin|Hin].
        -- left. apply in_list_del. auto.
        -- right. apply in_or_app. now left.
    + intros y Hy. apply in_list_del in Hy as [Hy _]. apply Hsub. exact Hy.
  - wp_pure. destruct (Z.eqb_spec e (- EAGAIN)) as [Ha|Ha].
    + apply IH. split; [|split; [|split]]; st_simpl.
      * intros y. cbn. apply Hge2.
      * intros y Hy. cbn. specialize (Hdone y Hy). specialize (Hmono y).
        unfold s1 in Hmono. cbn in Hmono. lia.
      * intros y Hy. rewrite Hl2'. now apply Hcov.
      * intros y Hy. rewrite Hl2' in Hy. now apply Hsub.
    + wp_pure. cbn [fst snd]. split; [|split].
      * intros y. cbn. apply Hge2.
      * intros H. contradiction.
      * intros _ Hb. exists dev. split; [apply Hsub; now left|]. split.
        -- unfold dev_status. cbn. now rewrite upd_dev_same.
        -- cbn. specialize (Hown Hb). specialize (Hge dev). unfold s1 in Hown.
           cbn in Hown. lia.
Qed.

End RuntimeReferences.

Section ReferencesGivenBack.
Context {PF : Platform}.
Variables (y : dev_id) (msg : pm_message_t).




End ReferencesGivenBack.

Section ReferenceAccounting.
Context {PF : Platform}.

(** X12.  Counting the calls logged on the trace ([pm_runtime_get_noresume]
    less [pm_runtime_put_sync]), [dpm_prepare] never lowers the number
    of runtime-PM references held on a device.  When it returns 0 it
    has taken at least one reference on every device of [dpm_list];
    when it returns an error other than -EBUSY, a device of the list is
    left at DPM_ON with the reference taken for the failed attempt
    still held. *)
Theorem dpm_prepare_takes_runtime_references (fuel : nat) (msg : pm_message_t)
    (s s' : state) (e : Z)
    (Hrun : dpm_prepare fuel msg s = Ret e s') :
  (forall y, runtime_refs y (trace s) <= runtime_refs y (trace s'))
  /\ (e = 0 ->
      forall y, In y (dpm_list s) ->
                runtime_refs y (trace s) + 1 <= runtime_refs y (trace s'))
  /\ (e <> 0 -> e <> - EBUSY ->
      exists d, In d (dpm_list s) /\ dev_status s' d = DPM_ON
                /\ runtime_refs d (trace s) + 1 <= runtime_refs d (trace s')).
Proof.
  assert (H : wp (dpm_prepare fuel msg)
                (fun r s1 =>
                   (forall y, runtime_refs y (trace s) <= runtime_refs y (trace s1))
                   /\ (r = 0 ->
                       forall y, In y (dpm_list s) ->
                         runtime_refs y (trace s) + 1 <= runtime_refs y (trace s1))
                   /\ (r <> 0 -> r <> - EBUSY ->
                       exists d, In d (dpm_list s) /\ dev_status s1 d = DPM_ON
                         /\ runtime_refs d (trace s) + 1
                            <= runtime_refs d (trace s1)))
                (fun _ _ => True) s);
    [|exact (wp_ret_eq _ _ _ _ _ _ Hrun H)].
  unfold dpm_prepare, mutex_lock. wp_pure. set (s0 := with_transition_started _ _).
  eapply wp_conseq;
    [apply (prepare_loop_refs msg (dpm_list s)
              (fun y => runtime_refs y (trace s)) fuel [] s0)
    | | auto].
  - unfold s0. cbn. repeat split; auto; try lia.
  - intros r s1 (H1 & H2 & H3). cbv beta. unfold mutex_unlock. wp_pure.
    cbn. repeat split; auto.
Qed.


End ReferenceAccounting.

(** ** The further properties on concrete machines *)

Section FurtherOnFixtures.
Import Fixture.




Lemma prepare_and_noirq_bodies_run_their_tiers_witness :
  let st := machine failing_middle [0%nat; 1%nat; 2%nat] false in
  device_suspend_noirq 1%nat PMSG_SUSPEND st
  = Ret (plan_result 1%nat (suspend_noirq_plan (devs st 1%nat)) st)
        (after_plan 1%nat (suspend_noirq_plan (devs st 1%nat)) st).
Proof.
  cbv zeta.
  exact (proj1 (proj2 (prepare_and_noirq_bodies_run_their_tiers 1%nat
           PMSG_SUSPEND (machine failing_middle [0%nat; 1%nat; 2%nat] false)
           eq_refl))).
Defined.

Lemma dpm_resume_noirq_brings_all_out_witness :
  let st := machine (parent_child 0 DPM_OFF_IRQ false) [0%nat; 1%nat] false in
  exists s',
    dpm_resume_noirq PMSG_RESUME st = Ret tt s'
    /\ (forall y, In y (dpm_list st) ->
                  dev_status s' y = out_of_noirq (dev_status st y))
    /\ (forall y, ~ In y (dpm_list st) -> devs s' y = devs st y)
    /\ dpm_list s' = dpm_list st
    /\ transition_started s' = false
    /\ exists new, trace s' = EvResumeIrqs :: EvUnlock :: new ++ trace st.
Proof.
  cbv zeta. apply dpm_resume_noirq_brings_all_out. reflexivity.
Defined.

Lemma dpm_suspend_noirq_all_or_nothing_witness :
  let st := machine failing_middle [0%nat; 1%nat; 2%nat] false in
  exists e s',
    dpm_suspend_noirq PMSG_SUSPEND st = Ret e s'
    /\ dpm_list s' = dpm_list st
    /\ (e = 0 ->
        all_at (dpm_list st) DPM_OFF_IRQ s'
        /\ (forall y, ~ In y (dpm_list st) -> devs s' y = devs st y)
        /\ exists new,
             trace s' = EvUnlock :: new ++ EvLock :: EvSuspendIrqs :: trace st)
    /\ (e <> 0 ->
        (exists waiting k reached,
           dpm_list st = waiting ++ k :: reached
           /\ failed_since k e (trace st) s'
           /\ all_at reached DPM_OFF s')
        /\ (forall y, In y (dpm_list st) ->
                      dpm_gt (dev_status s' y) DPM_OFF = false)
        /\ transition_started s' = false
        /\ exists tr, trace s' = EvResumeIrqs :: tr).
Proof.
  cbv zeta. apply dpm_suspend_noirq_all_or_nothing. reflexivity.
Defined.

Lemma dpm_complete_skips_devices_at_on_witness :
  let st := machine (parent_child 0 DPM_ON false) [0%nat; 1%nat] false in
  let st' := final (dpm_complete PMSG_RESUME st) in
  dev_status st' 1%nat = dev_status st 1%nat
  /\ silent_since 1%nat (trace st) st'
  /\ transition_started st' = false.
Proof.
  cbv zeta.
  refine (dpm_complete_skips_devices_at_on 1%nat PMSG_RESUME
            (machine (parent_child 0 DPM_ON false) [0%nat; 1%nat] false) _ _ _).
  - reflexivity.
  - apply returned_final. vm_compute. reflexivity.
Defined.

Lemma registration_during_a_transition_witness :
  let st := machine (parent_child 0 DPM_ON false) [0%nat; 1%nat] false in
  let st1 := final (dpm_prepare 5 PMSG_SUSPEND st) in
  transition_started st1 = true
  /\ device_pm_add 2%nat st1 =
     Ret tt (with_trace (EvUnlock :: EvWarn 2%nat :: EvLock :: trace st1)
               (with_dpm_list (dpm_list st ++ [2%nat]) st1)).
Proof.
  cbv zeta.
  assert (H : dpm_prepare 5 PMSG_SUSPEND
                (machine (parent_child 0 DPM_ON false) [0%nat; 1%nat] false)
              = Ret 0 (final (dpm_prepare 5 PMSG_SUSPEND
                  (machine (parent_child 0 DPM_ON false) [0%nat; 1%nat] false))))
    by (apply returned_final; vm_compute; reflexivity).
  assert (Hnd : NoDup (dpm_list
                  (machine (parent_child 0 DPM_ON false) [0%nat; 1%nat] false)))
    by (repeat constructor; cbn; intuition discriminate).
  pose proof (registration_during_a_transition 5 PMSG_SUSPEND 2%nat _ _ 0 Hnd H)
    as (H1 & H2 & _).
  split; [exact H1 | exact (H2 eq_refl)].
Defined.




Lemma dpm_prepare_takes_runtime_references_witness :
  let st := machine (parent_child 0 DPM_ON false) [0%nat; 1%nat] false in
  let st' := final (dpm_prepare 5 PMSG_SUSPEND st) in
  (forall y, runtime_refs y (trace st) <= runtime_refs y (trace st'))
  /\ (forall y, In y (dpm_list st) ->
                runtime_refs y (trace st) + 1 <= runtime_refs y (trace st')).
Proof.
  cbv zeta.
  assert (H : dpm_prepare 5 PMSG_SUSPEND
                (machine (parent_child 0 DPM_ON false) [0%nat; 1%nat] false)
              = Ret 0 (final (dpm_prepare 5 PMSG_SUSPEND
                  (machine (parent_child 0 DPM_ON false) [0%nat; 1%nat] false))))
    by (apply returned_final; vm_compute; reflexivity).
  pose proof (dpm_prepare_takes_runtime_references 5 PMSG_SUSPEND _ _ 0 H)
    as (H1 & H2 & _).
  split; [exact H1 | exact (H2 eq_refl)].
Defined.


End FurtherOnFixtures.
